(** * google-cloud-cpp: credential refresh, policy overrides and hash validation

    A shallow embedding of

    - [google/cloud/storage/internal/hash_validator.cc]
    - [google/cloud/storage/oauth2/google_credentials.cc]
    - [google/cloud/storage/internal/authorized_user_credentials.h]
    - [google/cloud/bigtable/internal/table_admin.h]

    C++ namespaces become modules, classes become records, member functions
    become functions that take the object and return the updated object,
    exceptions become the [Throws] branch of [outcome].  The first part of the
    file holds the definitions, the second part the theorems. *)

From Stdlib Require Import ZArith List String Ascii Bool Lia Sorted.
From Stdlib Require Import PrimFloat SpecFloat FloatOps.
Import ListNotations.
Local Open Scope string_scope.
Local Open Scope Z_scope.

(* ===================================================================== *)
(** * Part I: definitions                                                  *)
(* ===================================================================== *)

(** ** Exceptions and results *)

(** The exception classes that the modelled functions can raise:
    [std::runtime_error] (through [RaiseRuntimeError]), the two exception
    classes of the JSON library, [parse_error] and [type_error] (with its
    numeric id), and [std::ios_base::failure], which a stream buffer throws
    when reading from an open file fails. *)
Inductive exception : Type :=
| runtime_error (what : string)
| parse_error
| type_error (id : Z)
| ios_base_failure.

Inductive outcome (A : Type) : Type :=
| Returns (a : A)
| Throws (e : exception).
Arguments Returns {A} a.
Arguments Throws {A} e.

Definition bind {A B : Type} (m : outcome A) (k : A -> outcome B) : outcome B :=
  match m with
  | Returns a => k a
  | Throws e => Throws e
  end.

Notation "x <- m ;; k" := (bind m (fun x => k))
  (at level 61, m at next level, right associativity).

(** [std::shared_ptr<T>]: either null or an owned object. *)
Definition shared_ptr (A : Type) : Type := option A.
Definition nullptr {A : Type} : shared_ptr A := None.
Definition make_shared {A : Type} (a : A) : shared_ptr A := Some a.

(** ** 64-bit integers *)

(** The value of a 64-bit signed integer after an operation whose exact
    result is [z]: two's-complement wrap-around, which is what the compiled
    code does on overflow. *)
Definition int64 (z : Z) : Z := (z + 2 ^ 63) mod 2 ^ 64 - 2 ^ 63.

(** [static_cast<std::int64_t>(d)] of a [double]: the value truncated towards
    zero.  Outside the range of the target the conversion is undefined in
    C++; the model gives the result of the x86-64 conversion instruction, the
    least 64-bit integer. *)
Definition double_to_int64 (d : float) : Z :=
  match Prim2SF d with
  | S754_zero _ => 0
  | S754_finite negative m e =>
      let magnitude := if 0 <=? e then Z.pos m * 2 ^ e else Z.pos m / 2 ^ (- e) in
      let value := if negative then - magnitude else magnitude in
      if (- 2 ^ 63 <=? value) && (value <? 2 ^ 63) then value else - 2 ^ 63
  | S754_infinity _ | S754_nan => - 2 ^ 63
  end.

(** ** [std::string] operations *)

Module std.

(** [s.empty()] *)
Definition empty (s : string) : bool :=
  match s with
  | EmptyString => true
  | String _ _ => false
  end.

(** [s.find(needle)]: the position of the first occurrence of [needle] in
    [s]; [None] stands for [std::string::npos]. *)
Fixpoint find (needle s : string) : option nat :=
  if prefix needle s then Some 0%nat
  else match s with
       | EmptyString => None
       | String _ s' => option_map S (find needle s')
       end.

(** [s.substr(pos)]: the suffix of [s] that starts at [pos].  The source only
    calls it with [pos <= s.size()], where C++ does not throw. *)
Fixpoint substr (pos : nat) (s : string) : string :=
  match pos, s with
  | O, _ => s
  | S p, String _ s' => substr p s'
  | S _, EmptyString => EmptyString
  end.

End std.

(** What "the value contains the substring" means, independently of how
    [find] searches for it. *)
Definition contains (needle s : string) : Prop :=
  exists before after, s = before ++ needle ++ after.

(** ** JSON values (the bundled JSON library, [nljson.h]) *)

Module nl.

#[warnings="-register-all"]
Inductive json : Type :=
| null
| boolean (b : bool)
| number (n : Z)                (* number_integer: a 64-bit signed integer *)
| str (s : string)
| array (l : list json)
| object (m : list (string * json))
| number_unsigned (n : Z)       (* a 64-bit unsigned integer *)
| number_float (d : float).     (* a double *)

Fixpoint lookup (key : string) (m : list (string * json)) : option json :=
  match m with
  | [] => None
  | (k, v) :: m' => if String.eqb k key then Some v else lookup key m'
  end.

(** The parser is an external collaborator: any function from texts to
    values, [None] where the text is not valid JSON. *)
Class Parser := parse_text : string -> option json.

(** [json::parse(text)]: throws [parse_error] on invalid input. *)
Definition parse `{Parser} (text : string) : outcome json :=
  match parse_text text with
  | Some j => Returns j
  | None => Throws parse_error
  end.

(** [j[key]] on a non-const value: a null value becomes an empty object, a
    missing key is inserted with a null value, and any value that is neither
    null nor an object raises [type_error] 305.  Only the value read is
    modelled: the temporary [j] is not used again by the callers. *)
Definition subscript (j : json) (key : string) : outcome json :=
  match j with
  | null => Returns null
  | object m =>
      match lookup key m with
      | Some v => Returns v
      | None => Returns null
      end
  | _ => Throws (type_error 305)
  end.

(** [j.get_ref<std::string const&>()]: [type_error] 303 unless a string. *)
Definition get_ref_string (j : json) : outcome string :=
  match j with
  | str s => Returns s
  | _ => Throws (type_error 303)
  end.

(** Implicit conversion of a value to [std::string]: [type_error] 302 unless
    a string. *)
Definition to_string (j : json) : outcome string :=
  match j with
  | str s => Returns s
  | _ => Throws (type_error 302)
  end.

(** Implicit conversion of a value to an integer count: [type_error] 302
    unless a number.  The three kinds of number are converted to a 64-bit
    signed integer by [static_cast]. *)
Definition to_integer (j : json) : outcome Z :=
  match j with
  | number n => Returns n
  | number_unsigned n => Returns (int64 n)
  | number_float d => Returns (double_to_int64 d)
  | _ => Throws (type_error 302)
  end.

(** [j.value(key, default_value)] with a string default: the stored value
    converted to a string when the key is present, the default when it is
    absent, [type_error] 306 when [j] is not an object. *)
Definition value (j : json) (key default_value : string) : outcome string :=
  match j with
  | object m =>
      match lookup key m with
      | Some v => to_string v
      | None => Returns default_value
      end
  | _ => Throws (type_error 306)
  end.

End nl.

(** ** [hash_validator.cc] *)

(** The two OpenSSL services used by the validator. *)
Class OpenSsl := {
  MD5 : string -> string;           (* digest of the bytes fed to the context *)
  Base64Encode : string -> string
}.

(** [ObjectMetadata]: only the field read by the validator. *)
Record ObjectMetadata := { md5_hash : string }.

Module HashValidator.
Record Result := { received : string; computed : string }.
End HashValidator.

Record HashMismatchError := {
  mismatch_msg : string;
  received_hash : string;
  computed_hash : string
}.

(** [context_] is the MD5 context, represented by the bytes it has consumed;
    [received_hash_] is the hash announced by the server. *)
Record MD5HashValidator := {
  context_ : string;
  received_hash_ : string
}.

Module MD5HashValidator_.

(** The constructor: [MD5_Init] and an empty received hash. *)
Definition new : MD5HashValidator :=
  {| context_ := ""; received_hash_ := "" |}.

Definition Update (self : MD5HashValidator) (payload : string) : MD5HashValidator :=
  {| context_ := context_ self ++ payload; received_hash_ := received_hash_ self |}.

Definition ProcessMetadata (self : MD5HashValidator) (meta : ObjectMetadata)
  : MD5HashValidator :=
  if std.empty (md5_hash meta) then self
  else {| context_ := context_ self; received_hash_ := md5_hash meta |}.

Definition ProcessHeader (self : MD5HashValidator) (key value : string)
  : MD5HashValidator :=
  if negb (String.eqb key "x-goog-hash") then self
  else match std.find "md5=" value with
       | None => self
       | Some pos =>
           {| context_ := context_ self;
              received_hash_ := std.substr (pos + 4) value |}
       end.

(** [Finish]: the [have_exceptions] argument is the value of the macro
    [GOOGLE_CLOUD_CPP_HAVE_EXCEPTIONS]; the comparison and the throw are
    compiled only when it is set. *)
Definition Finish `{OpenSsl} (have_exceptions : bool) (self : MD5HashValidator)
    (msg : string) : HashValidator.Result + HashMismatchError :=
  let hash := MD5 (context_ self) in
  let computed := Base64Encode hash in
  if have_exceptions
     && (negb (std.empty (received_hash_ self))
         && negb (String.eqb (received_hash_ self) computed))
  then inr {| mismatch_msg := msg;
              received_hash := received_hash_ self;
              computed_hash := computed |}
  else inl {| HashValidator.received := received_hash_ self;
              HashValidator.computed := computed |}.

End MD5HashValidator_.

(** *** Sequences of calls on a validator *)

(** One call of a mutating member function of the validator. *)
Inductive ValidatorCall : Type :=
| CallUpdate (payload : string)
| CallProcessMetadata (meta : ObjectMetadata)
| CallProcessHeader (key value : string).

Definition perform (self : MD5HashValidator) (c : ValidatorCall) : MD5HashValidator :=
  match c with
  | CallUpdate payload => MD5HashValidator_.Update self payload
  | CallProcessMetadata meta => MD5HashValidator_.ProcessMetadata self meta
  | CallProcessHeader key value => MD5HashValidator_.ProcessHeader self key value
  end.

(** The calls made one after the other. *)
Definition perform_all (self : MD5HashValidator) (calls : list ValidatorCall)
  : MD5HashValidator :=
  fold_left perform calls self.

(** The concatenation of a list of texts. *)
Definition flatten (l : list string) : string := fold_right String.append "" l.

(** The bytes a call feeds to the digest. *)
Definition payload_of (c : ValidatorCall) : string :=
  match c with
  | CallUpdate payload => payload
  | _ => ""
  end.

(** The hash a call announces, if any: the non-empty [md5_hash] of a metadata
    object, or what follows the first ["md5="] in an ["x-goog-hash"] header. *)
Definition announced_md5 (c : ValidatorCall) : option string :=
  match c with
  | CallUpdate _ => None
  | CallProcessMetadata meta =>
      if std.empty (md5_hash meta) then None else Some (md5_hash meta)
  | CallProcessHeader key value =>
      if String.eqb key "x-goog-hash" then
        match std.find "md5=" value with
        | Some pos => Some (std.substr (pos + 4) value)
        | None => None
        end
      else None
  end.

(** ** [oauth2/google_credentials.cc] *)

Module oauth2.

(** The concrete credential classes.  Their constructors live in headers
    outside this development; an object is represented by the arguments it was
    built from. *)
Inductive Credentials : Type :=
| AnonymousCredentials
| AuthorizedUserCredentials (contents source : string)
| ServiceAccountCredentials (contents source : string).

(** What a path leads to: nothing that can be opened, something that opens
    but cannot be read (a directory), or a file with its contents. *)
Inductive file : Type :=
| cannot_open
| unreadable
| readable (contents : string).

(** What [GoogleDefaultCredentials] reads from its surroundings:
    [GoogleAdcFilePathOrEmpty()] and the file system. *)
Record Environment := {
  GoogleAdcFilePathOrEmpty : string;
  read_file : string -> file
}.

Definition RaiseRuntimeError {A : Type} (msg : string) : outcome A :=
  Throws (runtime_error msg).

Definition GoogleDefaultCredentials `{nl.Parser} (env : Environment)
  : outcome (shared_ptr Credentials) :=
  let path := GoogleAdcFilePathOrEmpty env in
  if negb (std.empty path) then
    match read_file env path with
    | cannot_open => RaiseRuntimeError ("Cannot open credentials file " ++ path)
    | unreadable =>
        (* the stream is open; [std::istreambuf_iterator] reads from its
           buffer, whose failure is not caught by any stream *)
        Throws ios_base_failure
    | readable contents =>
        (* parse(contents, nullptr, false): a discarded value, no exception *)
        match nl.parse_text contents with
        | None =>
            RaiseRuntimeError ("Invalid contents in credentials file " ++ path)
        | Some cred_json =>
            cred_type <- nl.value cred_json "type" "no type given" ;;
            if String.eqb cred_type "authorized_user" then
              Returns (make_shared (AuthorizedUserCredentials contents path))
            else if String.eqb cred_type "service_account" then
              Returns (make_shared (ServiceAccountCredentials contents path))
            else
              RaiseRuntimeError
                ("Unsupported credential type (" ++ cred_type ++
                 ") when reading Application Default Credentials file from " ++
                 path ++ ".")
        end
    end
  else
    RaiseRuntimeError
      "No eligible credential types were found to use as default credentials.".

Definition CreateAnonymousCredentials : shared_ptr Credentials :=
  make_shared AnonymousCredentials.

(** [std::ifstream is(path); std::string contents(std::istreambuf_iterator<char>{is}, {});]
    The stream is not tested: one that failed to open yields no characters,
    and one that opened but cannot be read throws. *)
Definition read_all (env : Environment) (path : string) : outcome string :=
  match read_file env path with
  | readable contents => Returns contents
  | cannot_open => Returns ""
  | unreadable => Throws ios_base_failure
  end.

Definition CreateAuthorizedUserCredentialsFromJsonFilePath
    (env : Environment) (path : string) : outcome (shared_ptr Credentials) :=
  contents <- read_all env path ;;
  Returns (make_shared (AuthorizedUserCredentials contents path)).

Definition CreateAuthorizedUserCredentialsFromJsonContents (contents : string)
  : shared_ptr Credentials :=
  make_shared (AuthorizedUserCredentials contents "memory").

Definition CreateServiceAccountCredentialsFromJsonFilePath
    (env : Environment) (path : string) : outcome (shared_ptr Credentials) :=
  contents <- read_all env path ;;
  Returns (make_shared (ServiceAccountCredentials contents path)).

Definition CreateServiceAccountCredentialsFromJsonContents (contents : string)
  : shared_ptr Credentials :=
  make_shared (ServiceAccountCredentials contents "memory").

End oauth2.

(** The text of the error raised for an unsupported [type]. *)
Definition unsupported_type_message (cred_type path : string) : string :=
  "Unsupported credential type (" ++ cred_type ++
  ") when reading Application Default Credentials file from " ++ path ++ ".".

(** ** Time *)

(** Time points and durations are counted in ticks of
    [std::chrono::system_clock], which are nanoseconds held in a 64-bit signed
    integer; a time point is the count since the epoch of the clock. *)
Definition time_point : Type := Z.
Definition duration : Type := Z.

Module chrono.
Definition milliseconds (n : Z) : duration := 1000000 * n.
Definition seconds (n : Z) : duration := 1000000000 * n.
Definition minutes (n : Z) : duration := 60000000000 * n.
End chrono.

(** ** Policies *)

(** Every policy class has a [clone()] member. *)
Class Cloneable (P : Type) := clone : P -> P.

(** [google::cloud::storage::Status(code)] *)
Record Status := { status_code : Z }.

(** Modelled from the spec: the classification of a failure as transient
    ([retry_policy.h] is not part of the sources).  Section 7: "Transient
    (e.g., network failure, 5xx, 429): retried per policy"; every other status
    is permanent. *)
Definition IsTransientFailure (s : Status) : bool :=
  (status_code s =? 429) || ((500 <=? status_code s) && (status_code s <? 600)).

(** Modelled from the spec: the two retry policies of [retry_policy.h], which
    is not part of the sources.  Section 4.2: the count-bounded policy "fails
    permanently after N consecutive failures", the time-bounded one "fails
    permanently once elapsed time ... exceeds a deadline"; section 3: a policy
    "owns mutable exhaustion state (count of failures so far, or deadline)". *)
Inductive RetryPolicy : Type :=
| LimitedErrorCountRetryPolicy (maximum_failures failure_count : nat)
| LimitedTimeRetryPolicy (maximum_duration : duration) (deadline : time_point).

Module RetryPolicy_.

(** Modelled from the spec: the constructors of the two policies of
    [retry_policy.h]; the time-bounded one reads the clock. *)
Definition LimitedErrorCount (maximum_failures : nat) : RetryPolicy :=
  LimitedErrorCountRetryPolicy maximum_failures 0.

Definition LimitedTime (maximum_duration : duration) (now : time_point) : RetryPolicy :=
  LimitedTimeRetryPolicy maximum_duration (now + maximum_duration).

(** Modelled from the spec: [IsExhausted] of [retry_policy.h]: the budget is
    used up after N failures, or once the clock has passed the deadline. *)
Definition IsExhausted (p : RetryPolicy) (now : time_point) : bool :=
  match p with
  | LimitedErrorCountRetryPolicy maximum_failures failure_count =>
      (maximum_failures <=? failure_count)%nat
  | LimitedTimeRetryPolicy _ deadline => deadline <? now
  end.

(** Modelled from the spec: [OnFailure] of [retry_policy.h].  Section 4.2:
    it "returns whether caller should retry; internally advances the bound",
    and a non-retryable error is "an immediate do not retry regardless of
    remaining budget - this check happens before budget accounting". *)
Definition OnFailure (p : RetryPolicy) (now : time_point) (s : Status)
  : bool * RetryPolicy :=
  if negb (IsTransientFailure s) then (false, p)
  else
    let p' :=
      match p with
      | LimitedErrorCountRetryPolicy maximum_failures failure_count =>
          LimitedErrorCountRetryPolicy maximum_failures (S failure_count)
      | LimitedTimeRetryPolicy _ _ => p
      end in
    (negb (IsExhausted p' now), p').

End RetryPolicy_.

(** Modelled from the spec: [clone] of [retry_policy.h], section 4.1: a "deep
    copy, independent mutable state". *)
#[export] Instance RetryPolicy_clone : Cloneable RetryPolicy := fun p => p.

(** Modelled from the spec: the exponential backoff policy of
    [retry_policy.h], which is not part of the sources.  Section 4.1: "delay
    starts at initial value; each call multiplies the previous delay by the
    scaling factor, capped at maximum".  The scaling factor is the fraction
    [scaling_num / scaling_den] (2.0 is [2 / 1]) and a product is truncated
    to a whole number of ticks. *)
Record BackoffPolicy := ExponentialBackoffPolicy {
  initial_delay : duration;
  maximum_delay : duration;
  scaling_num : Z;
  scaling_den : Z;
  current_delay : duration
}.

Module BackoffPolicy_.

(** Modelled from the spec: the constructor of the policy. *)
Definition ExponentialBackoff (initial maximum : duration) (num den : Z)
  : BackoffPolicy :=
  {| initial_delay := initial; maximum_delay := maximum;
     scaling_num := num; scaling_den := den; current_delay := initial |}.

(** Modelled from the spec: [OnCompletion] returns the next delay and
    advances the policy. *)
Definition OnCompletion (p : BackoffPolicy) : duration * BackoffPolicy :=
  let delay := current_delay p in
  let next := Z.min (maximum_delay p) (delay * scaling_num p / scaling_den p) in
  (delay,
   {| initial_delay := initial_delay p; maximum_delay := maximum_delay p;
      scaling_num := scaling_num p; scaling_den := scaling_den p;
      current_delay := next |}).

(** A policy is well formed when its current delay lies between zero and the
    maximum and its scaling factor is at least one. *)
Definition well_formed (p : BackoffPolicy) : Prop :=
  0 <= current_delay p <= maximum_delay p /\ 0 < scaling_den p <= scaling_num p.

(** The first [n] delays produced by successive calls of [OnCompletion]. *)
Fixpoint delays (n : nat) (p : BackoffPolicy) : list duration :=
  match n with
  | O => []
  | S n' => let '(d, p') := OnCompletion p in d :: delays n' p'
  end.

End BackoffPolicy_.

(** Modelled from the spec: [clone] of the backoff policy, a deep copy. *)
#[export] Instance BackoffPolicy_clone : Cloneable BackoffPolicy := fun p => p.

(** ** [storage/internal/authorized_user_credentials.h] *)

Module HttpResponse.
Record t := { status_code : Z; payload : string }.
End HttpResponse.

(** The request built by the constructor: the endpoint and the form body. *)
Record HttpRequest := { url : string; body : string }.

(** [HttpRequestBuilderType], the injection point of the class template: the
    escaping function is supplied by the transport. *)
Class HttpRequestBuilder := MakeEscapedString : string -> string.

(** [credential_constants.h] is not part of the sources; its two constants
    are parameters.  The slack is a [std::chrono::seconds], given by its
    count. *)
Class CredentialConstants := {
  GoogleOAuthRefreshEndpoint : string;
  GoogleOAuthTokenExpirationSlack : Z
}.

(** The surroundings of a credentials object: the system clock, the number of
    calls of [request_.MakeRequest()] so far, and the token endpoint, which
    answers the [i]-th call with [server i]. *)
Record World := {
  clock : time_point;
  requests_made : nat;
  server : nat -> HttpResponse.t
}.

Definition MakeRequest (w : World) : HttpResponse.t * World :=
  (server w (requests_made w),
   {| clock := clock w; requests_made := S (requests_made w); server := server w |}).

(** [std::this_thread::sleep_for(delay)] *)
Definition sleep_for (delay : duration) (w : World) : World :=
  {| clock := clock w + delay; requests_made := requests_made w; server := server w |}.

Definition STORAGE_CLIENT_DEFAULT_MAXIMUM_RETRY_PERIOD : duration := chrono.minutes 15.
Definition STORAGE_CLIENT_DEFAULT_INITIAL_BACKOFF_DELAY : duration := chrono.milliseconds 10.
Definition STORAGE_CLIENT_DEFAULT_MAXIMUM_BACKOFF_DELAY : duration := chrono.minutes 5.
(** [STORAGE_CLIENT_DEFAULT_BACKOFF_SCALING] is 2.0, the fraction 2 / 1. *)
Definition STORAGE_CLIENT_DEFAULT_BACKOFF_SCALING : Z * Z := (2, 1).

(** The data members of the class; [mu_] and [cv_] carry no data. *)
Record AuthorizedUserCredentials := {
  request_ : HttpRequest;
  authorization_header_ : string;
  expiration_time_ : time_point;
  retry_policy_ : RetryPolicy;
  backoff_policy_ : BackoffPolicy
}.

Module AuthorizedUserCredentials_.

(** Assignments to single data members. *)
Definition set_authorization_header (self : AuthorizedUserCredentials)
    (header : string) : AuthorizedUserCredentials :=
  {| request_ := request_ self;
     authorization_header_ := header;
     expiration_time_ := expiration_time_ self;
     retry_policy_ := retry_policy_ self;
     backoff_policy_ := backoff_policy_ self |}.

Definition set_expiration_time (self : AuthorizedUserCredentials)
    (expiration : time_point) : AuthorizedUserCredentials :=
  {| request_ := request_ self;
     authorization_header_ := authorization_header_ self;
     expiration_time_ := expiration;
     retry_policy_ := retry_policy_ self;
     backoff_policy_ := backoff_policy_ self |}.

Definition set_retry_policy (self : AuthorizedUserCredentials) (p : RetryPolicy)
  : AuthorizedUserCredentials :=
  {| request_ := request_ self;
     authorization_header_ := authorization_header_ self;
     expiration_time_ := expiration_time_ self;
     retry_policy_ := p;
     backoff_policy_ := backoff_policy_ self |}.

Definition set_backoff_policy (self : AuthorizedUserCredentials) (p : BackoffPolicy)
  : AuthorizedUserCredentials :=
  {| request_ := request_ self;
     authorization_header_ := authorization_header_ self;
     expiration_time_ := expiration_time_ self;
     retry_policy_ := retry_policy_ self;
     backoff_policy_ := p |}.

(** The constructor taking the file contents and the endpoint.  [now] is the
    clock reading used by the default time-bounded policy. *)
Definition new `{nl.Parser} `{HttpRequestBuilder}
    (content oauth_server : string) (now : time_point)
  : outcome AuthorizedUserCredentials :=
  let retry_policy :=
    clone (RetryPolicy_.LimitedTime STORAGE_CLIENT_DEFAULT_MAXIMUM_RETRY_PERIOD now) in
  let backoff_policy :=
    clone (BackoffPolicy_.ExponentialBackoff
             STORAGE_CLIENT_DEFAULT_INITIAL_BACKOFF_DELAY
             STORAGE_CLIENT_DEFAULT_MAXIMUM_BACKOFF_DELAY
             (fst STORAGE_CLIENT_DEFAULT_BACKOFF_SCALING)
             (snd STORAGE_CLIENT_DEFAULT_BACKOFF_SCALING)) in
  credentials <- nl.parse content ;;
  let payload := "grant_type=refresh_token" in
  let payload := payload ++ "&client_id=" in
  client_id <- (j <- nl.subscript credentials "client_id" ;; nl.to_string j) ;;
  let payload := payload ++ MakeEscapedString client_id in
  let payload := payload ++ "&client_secret=" in
  client_secret <- (j <- nl.subscript credentials "client_secret" ;; nl.to_string j) ;;
  let payload := payload ++ MakeEscapedString client_secret in
  let payload := payload ++ "&refresh_token=" in
  refresh_token <- (j <- nl.subscript credentials "refresh_token" ;; nl.to_string j) ;;
  let payload := payload ++ MakeEscapedString refresh_token in
  Returns {| request_ := {| url := oauth_server; body := payload |};
             authorization_header_ := "";
             expiration_time_ := 0;
             retry_policy_ := retry_policy;
             backoff_policy_ := backoff_policy |}.

(** A policy argument of the variadic constructors: overload resolution
    sends it to one of the two [Apply] members. *)
Inductive Policy : Type :=
| Retry (policy : RetryPolicy)
| Backoff (policy : BackoffPolicy).

Definition Apply (self : AuthorizedUserCredentials) (policy : Policy)
  : AuthorizedUserCredentials :=
  match policy with
  | Retry p => set_retry_policy self (clone p)
  | Backoff p => set_backoff_policy self (clone p)
  end.

Fixpoint ApplyPolicies (self : AuthorizedUserCredentials) (policies : list Policy)
  : AuthorizedUserCredentials :=
  match policies with
  | [] => self
  | head :: policies' => ApplyPolicies (Apply self head) policies'
  end.

(** The constructor taking the contents, the endpoint and policy overrides. *)
Definition new_with_policies `{nl.Parser} `{HttpRequestBuilder}
    (content oauth_server : string) (policies : list Policy) (now : time_point)
  : outcome AuthorizedUserCredentials :=
  self <- new content oauth_server now ;;
  Returns (ApplyPolicies self policies).

(** The part of [Refresh] that handles a 200 response: every step that can
    throw, in source order, and then the two values to be stored. *)
Definition ParseAccessToken `{nl.Parser} `{CredentialConstants}
    (payload : string) (now : time_point) : outcome (string * time_point) :=
  access_token <- nl.parse payload ;;
  let header := "Authorization: " in
  token_type <- (j <- nl.subscript access_token "token_type" ;; nl.get_ref_string j) ;;
  let header := header ++ token_type in
  let header := header ++ " " in
  access <- (j <- nl.subscript access_token "access_token" ;; nl.get_ref_string j) ;;
  let header := header ++ access in
  new_id <- (j <- nl.subscript access_token "id_token" ;; nl.to_string j) ;;
  expires_in <- (j <- nl.subscript access_token "expires_in" ;; nl.to_integer j) ;;
  (* [now() + expires_in - slack]: each [std::chrono::seconds] is converted
     to ticks and each sum is formed in a 64-bit signed integer *)
  let after := int64 (now + int64 (chrono.seconds expires_in)) in
  let new_expiration :=
    int64 (after - int64 (chrono.seconds GoogleOAuthTokenExpirationSlack)) in
  Returns (header, new_expiration).

(** How a run of a member function ends: normally, with an exception, or with
    the loop still running when the step budget of the model is used up. *)
Inductive run (A : Type) : Type :=
| Done (a : A) (self : AuthorizedUserCredentials) (w : World)
| Raised (e : exception) (self : AuthorizedUserCredentials) (w : World)
| OutOfFuel.
Arguments Done {A} a self w.
Arguments Raised {A} e self w.
Arguments OutOfFuel {A}.

(** The [while] loop of [Refresh]; one unit of fuel per evaluation of the
    loop condition. *)
Fixpoint RefreshLoop `{nl.Parser} `{CredentialConstants}
    (fuel : nat) (self : AuthorizedUserCredentials) (w : World) : run bool :=
  match fuel with
  | O => OutOfFuel
  | S fuel' =>
      if RetryPolicy_.IsExhausted (retry_policy_ self) (clock w) then Done false self w
      else
        let '(response, w) := MakeRequest w in
        if HttpResponse.status_code response =? 200 then
          match ParseAccessToken (HttpResponse.payload response) (clock w) with
          | Throws e => Raised e self w
          | Returns (header, new_expiration) =>
              (* Do not update any state until all potential exceptions are raised. *)
              let self := set_authorization_header self header in
              let self := set_expiration_time self new_expiration in
              Done true self w
          end
        else
          let last_status := {| status_code := HttpResponse.status_code response |} in
          let '(retry, policy) :=
            RetryPolicy_.OnFailure (retry_policy_ self) (clock w) last_status in
          let self := set_retry_policy self policy in
          if negb retry then Done false self w
          else
            let '(delay, policy) := BackoffPolicy_.OnCompletion (backoff_policy_ self) in
            let self := set_backoff_policy self policy in
            let w := sleep_for delay w in
            RefreshLoop fuel' self w
  end.

Definition Refresh `{nl.Parser} `{CredentialConstants}
    (fuel : nat) (self : AuthorizedUserCredentials) (w : World) : run bool :=
  if clock w <? expiration_time_ self then Done true self w
  else RefreshLoop fuel self w.

(** How a call of [AuthorizationHeader] stands after the listed wake-ups of
    the calling thread: it has returned the header, an exception has left it,
    or the thread is still inside [cv_.wait]; [Unfinished] when the step
    budget of the model ran out inside [Refresh]. *)
Inductive call : Type :=
| Returned (header : string) (self : AuthorizedUserCredentials) (w : World)
| Propagated (e : exception) (self : AuthorizedUserCredentials) (w : World)
| Blocked (self : AuthorizedUserCredentials) (w : World)
| Unfinished.

(** [cv_.wait(lk, pred)] is [while (!pred()) cv_.wait(lk);].  No member of
    the class notifies [cv_], so the thread leaves the inner wait only when
    the run time wakes it; [wakeups] lists, for each wake-up that happens, the
    ticks the thread has been waiting. *)
Fixpoint AuthorizationHeader `{nl.Parser} `{CredentialConstants}
    (fuel : nat) (wakeups : list nat) (self : AuthorizedUserCredentials) (w : World)
  : call :=
  match Refresh fuel self w with
  | Done true self w => Returned (authorization_header_ self) self w
  | Done false self w =>
      match wakeups with
      | [] => Blocked self w
      | waited :: wakeups' =>
          AuthorizationHeader fuel wakeups' self (sleep_for (Z.of_nat waited) w)
      end
  | Raised e self w => Propagated e self w
  | OutOfFuel => Unfinished
  end.

End AuthorizedUserCredentials_.

(** ** [bigtable/internal/table_admin.h] *)

Module bigtable.

Record AdminClient := { project : string }.

Inductive MetadataParamTypes : Type := PARENT | NAME | RESOURCE.

Record MetadataUpdatePolicy := {
  resource_name : string;
  param_type : MetadataParamTypes
}.

Inductive View : Type :=
| VIEW_UNSPECIFIED | NAME_ONLY | SCHEMA_VIEW | REPLICATION_VIEW | FULL.

Record GetTableRequest := { name : string; view : View }.

Definition ConstantIdempotencyPolicy (is_idempotent : bool) : bool := is_idempotent.

(** The strong types of [bigtable_strong_types.h]: a string behind [get()]. *)
Record ClusterId := { cluster_id_get : string }.
Record SnapshotId := { snapshot_id_get : string }.

Section TableAdmin.

(** The three policy interfaces of bigtable; the headers that declare them
    are not part of the sources, so the classes are abstract types of which
    only [clone] is used. *)
Context {RPCRetryPolicy RPCBackoffPolicy PollingPolicy : Type}.
Context `{Cloneable RPCRetryPolicy} `{Cloneable RPCBackoffPolicy}
        `{Cloneable PollingPolicy}.

(** The default policies for [internal::kBigtableTableAdminLimits] and
    [TableAdmin::InstanceName()], which is defined in [table_admin.cc]. *)
Class Defaults := {
  DefaultRPCRetryPolicy : RPCRetryPolicy;
  DefaultRPCBackoffPolicy : RPCBackoffPolicy;
  DefaultPollingPolicy : PollingPolicy;
  InstanceName : AdminClient -> string -> string
}.
Context `{Defaults}.

Record TableAdmin := {
  client_ : AdminClient;
  instance_id_ : string;
  instance_name_ : string;
  rpc_retry_policy_ : RPCRetryPolicy;
  rpc_backoff_policy_ : RPCBackoffPolicy;
  metadata_update_policy_ : MetadataUpdatePolicy;
  polling_policy_ : PollingPolicy
}.

(** The constructor without policy overrides. *)
Definition new (client : AdminClient) (instance_id : string) : TableAdmin :=
  let instance_name := InstanceName client instance_id in
  {| client_ := client;
     instance_id_ := instance_id;
     instance_name_ := instance_name;
     rpc_retry_policy_ := DefaultRPCRetryPolicy;
     rpc_backoff_policy_ := DefaultRPCBackoffPolicy;
     metadata_update_policy_ :=
       {| resource_name := instance_name; param_type := PARENT |};
     polling_policy_ := DefaultPollingPolicy |}.

(** A policy argument of the variadic constructor: overload resolution sends
    it to one of the three [ChangePolicy] members. *)
Inductive Policy : Type :=
| Retry (policy : RPCRetryPolicy)
| Backoff (policy : RPCBackoffPolicy)
| Polling (policy : PollingPolicy).

Definition ChangePolicy (self : TableAdmin) (policy : Policy) : TableAdmin :=
  match policy with
  | Retry p =>
      {| client_ := client_ self; instance_id_ := instance_id_ self;
         instance_name_ := instance_name_ self;
         rpc_retry_policy_ := clone p;
         rpc_backoff_policy_ := rpc_backoff_policy_ self;
         metadata_update_policy_ := metadata_update_policy_ self;
         polling_policy_ := polling_policy_ self |}
  | Backoff p =>
      {| client_ := client_ self; instance_id_ := instance_id_ self;
         instance_name_ := instance_name_ self;
         rpc_retry_policy_ := rpc_retry_policy_ self;
         rpc_backoff_policy_ := clone p;
         metadata_update_policy_ := metadata_update_policy_ self;
         polling_policy_ := polling_policy_ self |}
  | Polling p =>
      {| client_ := client_ self; instance_id_ := instance_id_ self;
         instance_name_ := instance_name_ self;
         rpc_retry_policy_ := rpc_retry_policy_ self;
         rpc_backoff_policy_ := rpc_backoff_policy_ self;
         metadata_update_policy_ := metadata_update_policy_ self;
         polling_policy_ := clone p |}
  end.

Fixpoint ChangePolicies (self : TableAdmin) (policies : list Policy) : TableAdmin :=
  match policies with
  | [] => self
  | policy :: policies' => ChangePolicies (ChangePolicy self policy) policies'
  end.

(** The constructor with policy overrides. *)
Definition new_with_policies (client : AdminClient) (instance_id : string)
    (policies : list Policy) : TableAdmin :=
  ChangePolicies (new client instance_id) policies.

Definition TableName (self : TableAdmin) (table_id : string) : string :=
  instance_name_ self ++ "/tables/" ++ table_id.

(** The remaining name builders; [+] associates to the left. *)
Definition SnapshotName (self : TableAdmin) (cluster_id : ClusterId)
    (snapshot_id : SnapshotId) : string :=
  (((instance_name_ self ++ "/clusters/") ++ cluster_id_get cluster_id)
     ++ "/snapshots/") ++ snapshot_id_get snapshot_id.

Definition ClusterName (self : TableAdmin) (cluster_id : ClusterId) : string :=
  (instance_name_ self ++ "/clusters/") ++ cluster_id_get cluster_id.

(** The arguments from which [AsyncGetTable] builds its
    [AsyncRetryUnaryRpc] object before starting it. *)
Record AsyncRetryUnaryRpc := {
  error_message : string;
  op_rpc_retry_policy : RPCRetryPolicy;
  op_rpc_backoff_policy : RPCBackoffPolicy;
  idempotent_policy : bool;
  op_metadata_update_policy : MetadataUpdatePolicy;
  op_client : AdminClient;
  op_request : GetTableRequest
}.

(** [AsyncGetTable] up to [retry->Start(cq)]: the operation object it hands
    to the completion queue.  No data member of the [TableAdmin] is assigned. *)
Definition AsyncGetTable (self : TableAdmin) (table_id : string) (v : View)
  : AsyncRetryUnaryRpc :=
  let request := {| name := TableName self table_id; view := v |} in
  {| error_message := "AsyncGetTable";
     op_rpc_retry_policy := clone (rpc_retry_policy_ self);
     op_rpc_backoff_policy := clone (rpc_backoff_policy_ self);
     idempotent_policy := ConstantIdempotencyPolicy true;
     op_metadata_update_policy := metadata_update_policy_ self;
     op_client := client_ self;
     op_request := request |}.

End TableAdmin.

End bigtable.

(** ** Reading a list of policy overrides *)

(** The last element of [l] that [pick] selects: what "the last supplied
    policy of a category" means, independently of how the constructors walk
    their argument lists. *)
Fixpoint last_of {A B : Type} (pick : A -> option B) (l : list A) : option B :=
  match l with
  | [] => None
  | x :: l' =>
      match last_of pick l' with
      | Some y => Some y
      | None => pick x
      end
  end.

Definition storage_retry (p : AuthorizedUserCredentials_.Policy) : option RetryPolicy :=
  match p with AuthorizedUserCredentials_.Retry r => Some r | _ => None end.

Definition storage_backoff (p : AuthorizedUserCredentials_.Policy) : option BackoffPolicy :=
  match p with AuthorizedUserCredentials_.Backoff b => Some b | _ => None end.

Definition bigtable_retry {R B P : Type} (p : @bigtable.Policy R B P) : option R :=
  match p with bigtable.Retry r => Some r | _ => None end.

Definition bigtable_backoff {R B P : Type} (p : @bigtable.Policy R B P) : option B :=
  match p with bigtable.Backoff b => Some b | _ => None end.

Definition bigtable_polling {R B P : Type} (p : @bigtable.Policy R B P) : option P :=
  match p with bigtable.Polling q => Some q | _ => None end.

(** The policy left in a category: the clone of the last override, or the
    policy that was there. *)
Definition honored {P : Type} `{Cloneable P} (override : option P) (previous : P) : P :=
  match override with
  | Some p => clone p
  | None => previous
  end.

(** ** [storage/tests/object_integration_test.cc] *)

Module object_integration_test.

(** [std::size_t] is 64 bits wide and its arithmetic wraps around. *)
Definition size_t_modulus : Z := 2 ^ 64.
Definition npos : Z := size_t_modulus - 1.
Definition size_t_add (a b : Z) : Z := (a + b) mod size_t_modulus.
Definition size_t_sub (a b : Z) : Z := (a - b) mod size_t_modulus.

(** [static_cast<int>(n)] of a [std::size_t]: the low 32 bits, signed. *)
Definition static_cast_int (n : Z) : Z := (n + 2 ^ 31) mod 2 ^ 32 - 2 ^ 31.

(** The position of the last occurrence of a character. *)
Fixpoint last_index_of (c : ascii) (s : string) : option nat :=
  match s with
  | EmptyString => None
  | String d s' =>
      match last_index_of c s' with
      | Some p => Some (S p)
      | None => if Ascii.eqb d c then Some O else None
      end
  end.

(** [s.find_last_of(c)], with [npos] when the character does not occur. *)
Definition find_last_of (c : ascii) (s : string) : Z :=
  match last_index_of c s with
  | Some p => Z.of_nat p
  | None => npos
  end.

Definition endl : string := String (ascii_of_nat 10) EmptyString.

(** What [main] does: it leaves with an exit code after writing to
    [std::cerr], or it registers the test environment and runs the tests. *)
Inductive main_result : Type :=
| Exit (code : Z) (cerr : string)
| RunAllTests (project_id bucket_name : string).

(** [google::cloud::testing_util::InitGoogleMock(argc, argv)] of
    [init_google_mock.h], which is not part of the sources: a parameter.  It
    removes the flags the test framework recognises from the arguments after
    [argv[0]] and lowers [argc] accordingly; the function gives the arguments
    it leaves. *)
Class GoogleMock := InitGoogleMock : list string -> list string.

(** [main(argc, argv)]: [argv0] is [argv[0]], [args] the arguments after it,
    so that [argc] is one more than the number of arguments that
    [InitGoogleMock] leaves. *)
Definition main `{GoogleMock} (argv0 : string) (args : list string) : main_result :=
  let args := InitGoogleMock args in
  let argc := 1 + Z.of_nat (List.length args) in
  if negb (argc =? 3) then
    let cmd := argv0 in
    let last_slash := find_last_of "/" argv0 in
    Exit 1 ((("Usage: " ++ std.substr (Z.to_nat (size_t_add last_slash 1)) cmd)
               ++ " <project-id> <bucket-name>") ++ endl)
  else
    let project_id := nth 0 args "" in
    let bucket_name := nth 1 args "" in
    RunAllTests project_id bucket_name.

(** [google::cloud::internal::Sample(generator, n, population)] of
    [random.h], which is not part of the sources: a parameter. *)
Class Random (PRNG : Type) := Sample : PRNG -> Z -> string -> string * PRNG.

Definition MakeRandomObjectName {PRNG : Type} `{Random PRNG} (generator_ : PRNG)
  : string * PRNG :=
  let '(sample, generator_) :=
    Sample generator_ 16
      ("abcdefghijklmnopqrstuvwxyz" ++ "ABCDEFGHIJKLMNOPQRSTUVWXYZ" ++ "012456789") in
  (("ob-" ++ sample) ++ ".txt", generator_).

Definition MakeEntityName (project_id : string) : string :=
  "project-viewers-" ++ project_id.

Definition MakeRandomBucketName {PRNG : Type} `{Random PRNG} (generator_ : PRNG)
  : string * PRNG :=
  let prefix := "gcs-cpp-test-bucket-" in
  let kMaxBucketNameLength := 63 in
  let max_random_characters :=
    size_t_sub kMaxBucketNameLength (Z.of_nat (String.length prefix)) in
  let '(sample, generator_) :=
    Sample generator_ (static_cast_int max_random_characters)
      "abcdefghijklmnopqrstuvwxyz012456789" in
  (prefix ++ sample, generator_).

End object_integration_test.

(** ** Concrete collaborators used by the examples *)

Module Sample.

(** A digest-and-encode pair that is good enough to tell payloads apart. *)
Definition openssl : OpenSsl :=
  {| MD5 := fun bytes => bytes; Base64Encode := fun digest => "b64:" ++ digest |}.

Definition token_json : nl.json :=
  nl.object [("token_type", nl.str "Bearer"); ("access_token", nl.str "abc");
             ("id_token", nl.str "id"); ("expires_in", nl.number_unsigned 3600)].

(** The same answer without the [id_token] field. *)
Definition token_json_without_id : nl.json :=
  nl.object [("token_type", nl.str "Type"); ("access_token", nl.str "xyz");
             ("expires_in", nl.number_unsigned 3600)].

Definition authorized_user_json : nl.json :=
  nl.object [("type", nl.str "authorized_user"); ("client_id", nl.str "id");
             ("client_secret", nl.str "secret"); ("refresh_token", nl.str "token")].

Definition service_account_json : nl.json :=
  nl.object [("type", nl.str "service_account")].

(** A parser that knows a handful of texts, named by what they stand for. *)
Definition parser : nl.Parser := fun text =>
  if String.eqb text "<token>" then Some token_json
  else if String.eqb text "<token without id_token>" then Some token_json_without_id
  else if String.eqb text "<token with fractional expires_in>" then
    Some (nl.object [("token_type", nl.str "Bearer"); ("access_token", nl.str "abc");
                     ("id_token", nl.str "id");
                     ("expires_in", nl.number_float 3600.75%float)])
  else if String.eqb text "<authorized user>" then Some authorized_user_json
  else if String.eqb text "<service account>" then Some service_account_json
  else if String.eqb text "<external account>" then
    Some (nl.object [("type", nl.str "external_account")])
  else if String.eqb text "<no type>" then Some (nl.object [])
  else None.

Definition constants : CredentialConstants :=
  {| GoogleOAuthRefreshEndpoint := "https://accounts.google.com/o/oauth2/token";
     GoogleOAuthTokenExpirationSlack := 500 |}.

Definition builder : HttpRequestBuilder := fun s => s.

(** A credentials file at [/adc.json] with the given contents. *)
Definition environment (contents : string) : oauth2.Environment :=
  {| oauth2.GoogleAdcFilePathOrEmpty := "/adc.json";
     oauth2.read_file := fun path =>
       if String.eqb path "/adc.json" then oauth2.readable contents
       else oauth2.cannot_open |}.

Definition unavailable : HttpResponse.t :=
  {| HttpResponse.status_code := 503; HttpResponse.payload := "" |}.

Definition ok (payload : string) : HttpResponse.t :=
  {| HttpResponse.status_code := 200; HttpResponse.payload := payload |}.

(** A credentials object whose token is stale (never fetched), with a
    count-bounded retry policy and an exponential backoff from 10 to 300000
    ticks. *)
Definition stale_credentials (limit : nat) : AuthorizedUserCredentials :=
  {| request_ := {| url := "https://accounts.google.com/o/oauth2/token";
                    body := "grant_type=refresh_token" |};
     authorization_header_ := "";
     expiration_time_ := 0;
     retry_policy_ := RetryPolicy_.LimitedErrorCount limit;
     backoff_policy_ := BackoffPolicy_.ExponentialBackoff 10 300000 2 1 |}.

(** The same object holding a token. *)
Definition with_token (self : AuthorizedUserCredentials) (header : string)
    (expiration : time_point) : AuthorizedUserCredentials :=
  AuthorizedUserCredentials_.set_expiration_time
    (AuthorizedUserCredentials_.set_authorization_header self header) expiration.

(** An endpoint that is always unavailable, 1000 ticks after the epoch. *)
Definition failing_world : World :=
  {| clock := 1000; requests_made := 0; server := fun _ => unavailable |}.

(** An endpoint that answers every request with a token. *)
Definition token_world : World :=
  {| clock := 1000; requests_made := 0; server := fun _ => ok "<token>" |}.

(** An endpoint that answers 503 to every even request and a token to every
    odd one. *)
Definition flaky_world : World :=
  {| clock := 1000; requests_made := 0;
     server := fun i => if Nat.even i then unavailable else ok "<token>" |}.

(** A generator that is a counter: the sample repeats one character of the
    population, chosen by the counter. *)
Definition counting_sample : object_integration_test.Random nat :=
  fun g n population =>
    (match String.get (Nat.modulo g (String.length population)) population with
     | Some c => string_of_list_ascii (repeat c (Z.to_nat n))
     | None => ""
     end, S g).


(** A credentials path that is a directory. *)
Definition directory_environment : oauth2.Environment :=
  {| oauth2.GoogleAdcFilePathOrEmpty := "/etc";
     oauth2.read_file := fun _ => oauth2.unreadable |}.

(** A test framework that takes the arguments starting with [--gtest_]. *)
Definition google_mock : object_integration_test.GoogleMock :=
  filter (fun argument => negb (prefix "--gtest_" argument)).

(** Bigtable policies without state, and the instance name as the service
    spells it. *)
Definition unit_clone : Cloneable unit := fun policy => policy.

Definition bigtable_defaults : @bigtable.Defaults unit unit unit :=
  {| bigtable.DefaultRPCRetryPolicy := tt;
     bigtable.DefaultRPCBackoffPolicy := tt;
     bigtable.DefaultPollingPolicy := tt;
     bigtable.InstanceName := fun client instance_id =>
       "projects/" ++ bigtable.project client ++ "/instances/" ++ instance_id |}.

Definition table_admin : @bigtable.TableAdmin unit unit unit :=
  @bigtable.new unit unit unit bigtable_defaults
    {| bigtable.project := "my-project" |} "my-instance".

End Sample.

(* ===================================================================== *)
(** * Part II: theorems                                                    *)
(* ===================================================================== *)

(** ** Strings *)

Lemma prefix_app (a s : string) :
  prefix a s = true <-> exists b, s = a ++ b.
Proof.
  revert s; induction a as [|c a IH]; intros s.
  - split; [intros _; exists s; reflexivity | destruct s; reflexivity].
  - destruct s as [|d s]; simpl.
    + split; [discriminate | intros [b Hb]; discriminate].
    + destruct (Ascii.ascii_dec c d) as [->|Hcd].
      * rewrite IH. split; intros [b Hb]; exists b; congruence.
      * split; [discriminate | intros [b Hb]; congruence].
Qed.

Lemma length_app (a b : string) :
  String.length (a ++ b) = (String.length a + String.length b)%nat.
Proof. induction a; simpl; congruence. Qed.

Lemma substr_app (before rest : string) :
  std.substr (String.length before) (before ++ rest) = rest.
Proof. induction before; simpl; [destruct rest; reflexivity | assumption]. Qed.

Lemma substr_add (n m : nat) (s : string) :
  std.substr (n + m) s = std.substr m (std.substr n s).
Proof.
  revert s; induction n as [|n IH]; intros s; simpl.
  - reflexivity.
  - destruct s; simpl; [destruct m; reflexivity | apply IH].
Qed.

Lemma find_eq (needle s : string) :
  std.find needle s =
  if prefix needle s then Some 0%nat
  else match s with
       | EmptyString => None
       | String _ s' => option_map S (std.find needle s')
       end.
Proof. destruct s; reflexivity. Qed.

(** [find] returns a position at which the needle occurs. *)
Lemma find_Some (needle s : string) (pos : nat) :
  std.find needle s = Some pos ->
  exists before after,
    s = before ++ needle ++ after /\ String.length before = pos.
Proof.
  revert pos; induction s as [|c s IH]; intros pos; rewrite find_eq;
    match goal with |- context [prefix ?a ?b] => destruct (prefix a b) eqn:Hp end.
  - intros [= <-]. apply prefix_app in Hp as [b Hb].
    exists "", b. split; [exact Hb | reflexivity].
  - discriminate.
  - intros [= <-]. apply prefix_app in Hp as [b Hb].
    exists "", b. split; [exact Hb | reflexivity].
  - destruct (std.find needle s) as [p|] eqn:Hf; simpl; [|discriminate].
    intros [= <-]. destruct (IH p eq_refl) as (before & after & -> & Hlen).
    exists (String c before), after. simpl. split; [reflexivity | congruence].
Qed.

(** [find] misses only when the needle does not occur. *)
Lemma find_None (needle s : string) :
  std.find needle s = None <-> ~ contains needle s.
Proof.
  induction s as [|c s IH]; rewrite find_eq;
    match goal with |- context [prefix ?a ?b] => destruct (prefix a b) eqn:Hp end.
  - split; [discriminate|]. intros Hn. exfalso. apply Hn.
    apply prefix_app in Hp as [b Hb]. exists "", b. exact Hb.
  - split; [|reflexivity]. intros _ (before & after & Heq).
    destruct before; simpl in Heq.
    + assert (prefix needle "" = true) by (apply prefix_app; eauto). congruence.
    + discriminate.
  - split; [discriminate|]. intros Hn. exfalso. apply Hn.
    apply prefix_app in Hp as [b Hb]. exists "", b. exact Hb.
  - destruct (std.find needle s) as [p|] eqn:Hf; simpl.
    + split; [discriminate|]. intros Hn. exfalso. apply Hn.
      destruct (find_Some _ _ _ Hf) as (before & after & -> & _).
      exists (String c before), after. reflexivity.
    + split; [|reflexivity]. intros _ (before & after & Heq).
      destruct before as [|d before]; simpl in Heq.
      * assert (prefix needle (String c s) = true) by (apply prefix_app; eauto).
        congruence.
      * injection Heq as _ Heq. apply (proj1 IH eq_refl).
        exists before, after. exact Heq.
Qed.

Lemma empty_true (s : string) : std.empty s = true <-> s = "".
Proof. destruct s; simpl; split; congruence. Qed.

Lemma empty_false (s : string) : std.empty s = false <-> s <> "".
Proof. destruct s; simpl; split; congruence. Qed.

(** ** The MD5 hash validator *)

Section HashValidatorFacts.
Import MD5HashValidator_.

Lemma ProcessHeader_found (self : MD5HashValidator) (value : string) (pos : nat) :
  std.find "md5=" value = Some pos ->
  exists before after,
    value = before ++ "md5=" ++ after /\
    received_hash_ (ProcessHeader self "x-goog-hash" value) = after.
Proof.
  intros Hf. destruct (find_Some _ _ _ Hf) as (before & after & Hv & Hlen).
  exists before, after. split; [exact Hv|].
  unfold ProcessHeader. simpl negb. cbv iota. rewrite Hf. simpl received_hash_.
  rewrite substr_add, <- Hlen, Hv, substr_app. reflexivity.
Qed.

(** The frame of the two functions.  A call of [ProcessMetadata] whose
    metadata has an empty [md5_hash], and a call of [ProcessHeader] whose key
    is not ["x-goog-hash"] or whose value does not contain ["md5="], leave
    [received_hash_] as it was.  Conversely [received_hash_] is either
    unchanged or taken from the input: the non-empty [md5_hash] of the
    metadata, or the text that follows ["md5="] in the value of an
    ["x-goog-hash"] header. *)
Theorem received_hash_changes_only_with_md5 :
  forall (self : MD5HashValidator) (meta : ObjectMetadata) (key value : string),
    (md5_hash meta = "" ->
       received_hash_ (ProcessMetadata self meta) = received_hash_ self)
    /\ (key <> "x-goog-hash" \/ ~ contains "md5=" value ->
       received_hash_ (ProcessHeader self key value) = received_hash_ self)
    /\ (received_hash_ (ProcessMetadata self meta) = received_hash_ self
        \/ (md5_hash meta <> ""
            /\ received_hash_ (ProcessMetadata self meta) = md5_hash meta))
    /\ (received_hash_ (ProcessHeader self key value) = received_hash_ self
        \/ (key = "x-goog-hash"
            /\ exists before after,
                 value = before ++ "md5=" ++ after
                 /\ received_hash_ (ProcessHeader self key value) = after)).
Proof.
  intros self meta key value. repeat split.
  - intros Hempty. unfold ProcessMetadata. rewrite Hempty. reflexivity.
  - intros [Hkey | Hvalue]; unfold ProcessHeader.
    + apply String.eqb_neq in Hkey. rewrite Hkey. reflexivity.
    + apply find_None in Hvalue. rewrite Hvalue.
      destruct (negb (key =? "x-goog-hash")%string); reflexivity.
  - unfold ProcessMetadata. destruct (std.empty (md5_hash meta)) eqn:He.
    + left. reflexivity.
    + right. split; [apply empty_false; exact He | reflexivity].
  - destruct (String.eqb_spec key "x-goog-hash") as [-> | Hkey].
    + destruct (std.find "md5=" value) as [pos|] eqn:Hf.
      * right. split; [reflexivity|]. exact (ProcessHeader_found self value pos Hf).
      * left. unfold ProcessHeader. rewrite Hf. reflexivity.
    + left. unfold ProcessHeader. apply String.eqb_neq in Hkey. rewrite Hkey.
      reflexivity.
Qed.

Lemma received_hash_changes_only_with_md5_witness :
  let self := {| context_ := "payload"; received_hash_ := "1B2M2Y8AsgTpgAmY7PhCfg==" |} in
  received_hash_ (ProcessMetadata self {| md5_hash := "" |}) = received_hash_ self
  /\ received_hash_ (ProcessHeader self "content-type" "md5=AAAA") = received_hash_ self
  /\ received_hash_ (ProcessHeader self "x-goog-hash" "crc32c=n03x6A==") = received_hash_ self.
Proof.
  intros self. split; [|split].
  - exact (proj1 (received_hash_changes_only_with_md5
                    self {| md5_hash := "" |} "" "") eq_refl).
  - apply (proj1 (proj2 (received_hash_changes_only_with_md5
                           self {| md5_hash := "" |} "content-type" "md5=AAAA"))).
    left. discriminate.
  - apply (proj1 (proj2 (received_hash_changes_only_with_md5
                           self {| md5_hash := "" |} "x-goog-hash" "crc32c=n03x6A=="))).
    right. apply find_None. reflexivity.
Defined.

(** C10, on the code: [ProcessHeader] does overwrite a recorded hash with an
    empty or an irrelevant value.  Whatever hash a validator holds, the header
    value ["md5="] replaces it by the empty text, and a value in which
    ["md5="] is the tail of another name replaces it by text that is no md5
    value; [ProcessMetadata], by contrast, keeps the recorded hash when the
    metadata has none. *)
Theorem ProcessHeader_overwrites_recorded_hash :
  forall self : MD5HashValidator,
    received_hash_ (ProcessHeader self "x-goog-hash" "md5=") = ""
    /\ received_hash_ (ProcessHeader self "x-goog-hash" "hmacmd5=,crc32c=n03x6A==")
       = ",crc32c=n03x6A=="
    /\ received_hash_ (ProcessHeader self "x-goog-hash" "md5=AAAA,crc32c=n03x6A==")
       = "AAAA,crc32c=n03x6A=="
    /\ received_hash_ (ProcessMetadata self {| md5_hash := "" |})
       = received_hash_ self.
Proof.
  intros self. split; [|split; [|split]].
  - unfold ProcessHeader. simpl. reflexivity.
  - unfold ProcessHeader. simpl. reflexivity.
  - unfold ProcessHeader. simpl. reflexivity.
  - unfold ProcessMetadata. simpl. reflexivity.
Qed.

(** What the two functions store when an md5 value is present. *)
Example ProcessHeader_stores_suffix :
  received_hash_ (ProcessHeader new "x-goog-hash" "crc32c=n03x6A==,md5=AAAA")
  = "AAAA".
Proof. reflexivity. Qed.

(** The text after ["md5="] is stored as it is, up to the end of the value,
    also when it is empty. *)
Example ProcessHeader_stores_rest_of_value :
  received_hash_ (ProcessHeader new "x-goog-hash" "md5=AAAA,crc32c=n03x6A==")
  = "AAAA,crc32c=n03x6A=="
  /\ received_hash_
       (ProcessHeader {| context_ := ""; received_hash_ := "AAAA" |}
          "x-goog-hash" "md5=")
     = "".
Proof. split; reflexivity. Qed.

Example ProcessMetadata_stores_hash :
  received_hash_ (ProcessMetadata new {| md5_hash := "AAAA" |}) = "AAAA".
Proof. reflexivity. Qed.

(** The position passed to [substr] is within the value. *)
Lemma ProcessHeader_substr_in_range (value : string) (pos : nat) :
  std.find "md5=" value = Some pos -> (pos + 4 <= String.length value)%nat.
Proof.
  intros Hf. destruct (find_Some _ _ _ Hf) as (before & after & -> & <-).
  rewrite !length_app. simpl. lia.
Qed.

(** C8, as it stands, fails in a build without exceptions: a recorded hash
    that differs from the computed one is returned, not raised. *)
Lemma Finish_without_exceptions_counterexample :
  ~ (forall (ssl : OpenSsl) (have_exceptions : bool) (self : MD5HashValidator)
            (msg : string),
        (exists e, @Finish ssl have_exceptions self msg = inr e) <->
        (received_hash_ self <> ""
         /\ received_hash_ self <> @Base64Encode ssl (@MD5 ssl (context_ self)))).
Proof.
  intros claim.
  destruct (claim Sample.openssl false
                  {| context_ := "payload"; received_hash_ := "AAAA" |} "download")
    as [_ raises].
  destruct raises as [e He].
  - split; discriminate.
  - discriminate He.
Qed.

(** C8, amended.  [Finish] raises [HashMismatchError] exactly when the build
    has exceptions enabled, a hash was received and it differs from the
    computed one; the error carries the message and both hashes and nothing
    is retried.  In every other case, in particular when no hash was received
    or when exceptions are disabled, it returns the pair of the received and
    the computed hash. *)
Theorem Finish_raises_exactly_on_mismatch :
  forall (ssl : OpenSsl) (have_exceptions : bool) (self : MD5HashValidator)
         (msg : string),
    let computed := Base64Encode (MD5 (context_ self)) in
    (Finish have_exceptions self msg
       = inr {| mismatch_msg := msg; received_hash := received_hash_ self;
                computed_hash := computed |}
     /\ have_exceptions = true
     /\ received_hash_ self <> ""
     /\ received_hash_ self <> computed)
    \/
    (Finish have_exceptions self msg
       = inl {| HashValidator.received := received_hash_ self;
                HashValidator.computed := computed |}
     /\ (have_exceptions = false
         \/ received_hash_ self = ""
         \/ received_hash_ self = computed)).
Proof.
  intros ssl have_exceptions self msg computed. unfold Finish. fold computed.
  destruct have_exceptions; simpl andb.
  - destruct (std.empty (received_hash_ self)) eqn:He; simpl.
    + right. split; [reflexivity|]. right; left. apply empty_true; exact He.
    + destruct (String.eqb_spec (received_hash_ self) computed) as [Heq | Hne]; simpl.
      * right. split; [reflexivity|]. right; right. exact Heq.
      * left. repeat split; try assumption. apply empty_false; exact He.
  - right. split; [reflexivity | left; reflexivity].
Qed.

Example Finish_raises :
  @Finish Sample.openssl true {| context_ := "payload"; received_hash_ := "AAAA" |} "download"
  = inr {| mismatch_msg := "download"; received_hash := "AAAA";
           computed_hash := "b64:payload" |}.
Proof. reflexivity. Qed.

Example Finish_without_received_hash :
  @Finish Sample.openssl true (Update new "payload") "download"
  = inl {| HashValidator.received := ""; HashValidator.computed := "b64:payload" |}.
Proof. reflexivity. Qed.

End HashValidatorFacts.

(** ** Default credentials *)

Section DefaultCredentialsFacts.
Import oauth2.

(** Whatever the surroundings, a returned pointer is neither null nor the
    anonymous credentials: the function returns one of the two file-based
    credentials or raises. *)
Lemma GoogleDefaultCredentials_returns_file_credentials
    (P : nl.Parser) (env : Environment) (result : shared_ptr Credentials) :
  GoogleDefaultCredentials env = Returns result ->
  exists contents,
    read_file env (GoogleAdcFilePathOrEmpty env) = readable contents /\
    (result = make_shared (AuthorizedUserCredentials contents (GoogleAdcFilePathOrEmpty env))
     \/ result = make_shared (ServiceAccountCredentials contents (GoogleAdcFilePathOrEmpty env))).
Proof.
  unfold GoogleDefaultCredentials, RaiseRuntimeError.
  destruct (negb (std.empty (GoogleAdcFilePathOrEmpty env))); [|discriminate].
  destruct (read_file env (GoogleAdcFilePathOrEmpty env)) as [| |contents];
    [discriminate|discriminate|].
  destruct (nl.parse_text contents) as [cred_json|]; [|discriminate].
  destruct (nl.value cred_json "type" "no type given") as [cred_type|]; simpl;
    [|discriminate].
  destruct (cred_type =? "authorized_user")%string.
  - intros [= <-]. exists contents. auto.
  - destruct (cred_type =? "service_account")%string; [|discriminate].
    intros [= <-]. exists contents. auto.
Qed.

(** The selection when the [type] field is a string or absent.  For a
    credentials file that opens and parses to a JSON object,
    ["authorized_user"] gives an [AuthorizedUserCredentials],
    ["service_account"] a [ServiceAccountCredentials], and any other text, as
    well as a missing field, raises a runtime error that names the unsupported
    type.  In no case is a null pointer or the anonymous (default)
    credentials object returned. *)
Theorem GoogleDefaultCredentials_selects_by_type :
  forall (P : nl.Parser) (env : Environment) (contents : string)
         (fields : list (string * nl.json)),
    let path := GoogleAdcFilePathOrEmpty env in
    path <> "" ->
    read_file env path = readable contents ->
    nl.parse_text contents = Some (nl.object fields) ->
    (nl.lookup "type" fields = Some (nl.str "authorized_user") ->
       GoogleDefaultCredentials env
       = Returns (make_shared (AuthorizedUserCredentials contents path)))
    /\ (nl.lookup "type" fields = Some (nl.str "service_account") ->
       GoogleDefaultCredentials env
       = Returns (make_shared (ServiceAccountCredentials contents path)))
    /\ (forall cred_type,
          nl.lookup "type" fields = Some (nl.str cred_type)
          \/ (nl.lookup "type" fields = None /\ cred_type = "no type given") ->
          cred_type <> "authorized_user" ->
          cred_type <> "service_account" ->
          GoogleDefaultCredentials env
          = Throws (runtime_error
                      ("Unsupported credential type (" ++ cred_type ++
                       ") when reading Application Default Credentials file from "
                       ++ path ++ ".")))
    /\ GoogleDefaultCredentials env <> Returns nullptr
    /\ GoogleDefaultCredentials env <> Returns CreateAnonymousCredentials.
Proof.
  intros P env contents fields path Hpath Hread Hparse.
  assert (Hstart : forall cred_type,
             nl.value (nl.object fields) "type" "no type given" = Returns cred_type ->
             GoogleDefaultCredentials env =
             if (cred_type =? "authorized_user")%string then
               Returns (make_shared (AuthorizedUserCredentials contents path))
             else if (cred_type =? "service_account")%string then
               Returns (make_shared (ServiceAccountCredentials contents path))
             else
               Throws (runtime_error
                         ("Unsupported credential type (" ++ cred_type ++
                          ") when reading Application Default Credentials file from "
                          ++ path ++ "."))).
  { intros cred_type Hvalue. unfold GoogleDefaultCredentials. fold path.
    apply empty_false in Hpath. rewrite Hpath. simpl negb. cbv iota.
    rewrite Hread, Hparse, Hvalue. reflexivity. }
  repeat split.
  - intros Htype. rewrite (Hstart "authorized_user"); [reflexivity|].
    simpl. rewrite Htype. reflexivity.
  - intros Htype. rewrite (Hstart "service_account"); [reflexivity|].
    simpl. rewrite Htype. reflexivity.
  - intros cred_type Htype Hau Hsa. rewrite (Hstart cred_type).
    + apply String.eqb_neq in Hau, Hsa. rewrite Hau, Hsa. reflexivity.
    + simpl. destruct Htype as [-> | [-> ->]]; reflexivity.
  - intros Hnull.
    destruct (GoogleDefaultCredentials_returns_file_credentials _ _ _ Hnull)
      as (c & _ & [H | H]); discriminate H.
  - intros Hanon.
    destruct (GoogleDefaultCredentials_returns_file_credentials _ _ _ Hanon)
      as (c & _ & [H | H]); discriminate H.
Qed.

Lemma GoogleDefaultCredentials_selects_by_type_witness :
  @GoogleDefaultCredentials Sample.parser (Sample.environment "<authorized user>")
  = Returns (make_shared (AuthorizedUserCredentials "<authorized user>" "/adc.json"))
  /\ @GoogleDefaultCredentials Sample.parser (Sample.environment "<service account>")
     = Returns (make_shared (ServiceAccountCredentials "<service account>" "/adc.json"))
  /\ @GoogleDefaultCredentials Sample.parser (Sample.environment "<external account>")
     = Throws (runtime_error
                 ("Unsupported credential type (external_account) when reading "
                  ++ "Application Default Credentials file from /adc.json."))
  /\ @GoogleDefaultCredentials Sample.parser (Sample.environment "<no type>")
     = Throws (runtime_error
                 ("Unsupported credential type (no type given) when reading "
                  ++ "Application Default Credentials file from /adc.json.")).
Proof.
  split; [|split; [|split]].
  - apply (proj1 (GoogleDefaultCredentials_selects_by_type
                    Sample.parser (Sample.environment "<authorized user>")
                    "<authorized user>" _ ltac:(discriminate) eq_refl eq_refl)).
    reflexivity.
  - apply (proj1 (proj2 (GoogleDefaultCredentials_selects_by_type
                    Sample.parser (Sample.environment "<service account>")
                    "<service account>" _ ltac:(discriminate) eq_refl eq_refl))).
    reflexivity.
  - apply (proj1 (proj2 (proj2 (GoogleDefaultCredentials_selects_by_type
                    Sample.parser (Sample.environment "<external account>")
                    "<external account>" _ ltac:(discriminate) eq_refl eq_refl)))
             "external_account").
    + left. reflexivity.
    + discriminate.
    + discriminate.
  - apply (proj1 (proj2 (proj2 (GoogleDefaultCredentials_selects_by_type
                    Sample.parser (Sample.environment "<no type>")
                    "<no type>" _ ltac:(discriminate) eq_refl eq_refl)))
             "no type given").
    + right. split; reflexivity.
    + discriminate.
    + discriminate.
Defined.

(** C9, as it stands, fails for a [type] that is not a string: the file
    parses to an object, its [type] is neither of the two supported values,
    and what is raised is the JSON library's [type_error], not a runtime
    error. *)
Lemma GoogleDefaultCredentials_type_error_counterexample :
  ~ (forall (P : nl.Parser) (env : Environment) (contents : string)
            (fields : list (string * nl.json)),
        GoogleAdcFilePathOrEmpty env <> "" ->
        read_file env (GoogleAdcFilePathOrEmpty env) = readable contents ->
        nl.parse_text contents = Some (nl.object fields) ->
        nl.lookup "type" fields <> Some (nl.str "authorized_user") ->
        nl.lookup "type" fields <> Some (nl.str "service_account") ->
        exists what, GoogleDefaultCredentials env = Throws (runtime_error what)).
Proof.
  intros claim.
  destruct (claim (fun _ => Some (nl.object [("type", nl.number 7)]))
                  (Sample.environment "anything") "anything"
                  [("type", nl.number 7)])
    as [what Hraised]; try discriminate; try reflexivity.
Qed.

(** C9, amended.  For a credentials file that opens and parses to a JSON
    object, a [type] of ["authorized_user"] gives an
    [AuthorizedUserCredentials] and ["service_account"] a
    [ServiceAccountCredentials]; any other text, as well as a missing field,
    raises a runtime error that names the unsupported type; a [type] that is
    not a string raises the JSON library's [type_error] 302.  In no case is a
    null pointer or the anonymous (default) credentials object returned. *)
Theorem GoogleDefaultCredentials_by_type_field :
  forall (P : nl.Parser) (env : Environment) (contents : string)
         (fields : list (string * nl.json)),
    let path := GoogleAdcFilePathOrEmpty env in
    path <> "" ->
    read_file env path = readable contents ->
    nl.parse_text contents = Some (nl.object fields) ->
    (nl.lookup "type" fields = Some (nl.str "authorized_user") ->
       GoogleDefaultCredentials env
       = Returns (make_shared (AuthorizedUserCredentials contents path)))
    /\ (nl.lookup "type" fields = Some (nl.str "service_account") ->
       GoogleDefaultCredentials env
       = Returns (make_shared (ServiceAccountCredentials contents path)))
    /\ (forall cred_type,
          nl.lookup "type" fields = Some (nl.str cred_type)
          \/ (nl.lookup "type" fields = None /\ cred_type = "no type given") ->
          cred_type <> "authorized_user" ->
          cred_type <> "service_account" ->
          GoogleDefaultCredentials env
          = Throws (runtime_error (unsupported_type_message cred_type path)))
    /\ (forall v,
          nl.lookup "type" fields = Some v ->
          (forall text, v <> nl.str text) ->
          GoogleDefaultCredentials env = Throws (type_error 302))
    /\ GoogleDefaultCredentials env <> Returns nullptr
    /\ GoogleDefaultCredentials env <> Returns CreateAnonymousCredentials.
Proof.
  intros P env contents fields path Hpath Hread Hparse.
  assert (Hstart :
            GoogleDefaultCredentials env
            = (cred_type <- nl.value (nl.object fields) "type" "no type given" ;;
               if (cred_type =? "authorized_user")%string then
                 Returns (make_shared (AuthorizedUserCredentials contents path))
               else if (cred_type =? "service_account")%string then
                 Returns (make_shared (ServiceAccountCredentials contents path))
               else
                 Throws (runtime_error (unsupported_type_message cred_type path)))).
  { unfold GoogleDefaultCredentials. fold path.
    apply empty_false in Hpath. rewrite Hpath. simpl negb. cbv iota.
    rewrite Hread, Hparse. reflexivity. }
  split; [|split; [|split; [|split; [|split]]]].
  - intros Htype. rewrite Hstart. simpl. rewrite Htype. reflexivity.
  - intros Htype. rewrite Hstart. simpl. rewrite Htype. reflexivity.
  - intros cred_type Htype Hau Hsa. rewrite Hstart. simpl.
    apply String.eqb_neq in Hau, Hsa.
    destruct Htype as [Htype | [Htype ->]]; rewrite Htype; simpl;
      [rewrite Hau, Hsa; reflexivity | reflexivity].
  - intros v Htype Hnot. rewrite Hstart. simpl. rewrite Htype.
    destruct v; try reflexivity. exfalso. eapply Hnot. reflexivity.
  - intros Hnull.
    destruct (GoogleDefaultCredentials_returns_file_credentials _ _ _ Hnull)
      as (c & _ & [H | H]); discriminate H.
  - intros Hanon.
    destruct (GoogleDefaultCredentials_returns_file_credentials _ _ _ Hanon)
      as (c & _ & [H | H]); discriminate H.
Qed.

Lemma GoogleDefaultCredentials_by_type_field_witness :
  @GoogleDefaultCredentials Sample.parser (Sample.environment "<authorized user>")
  = Returns (make_shared (AuthorizedUserCredentials "<authorized user>" "/adc.json"))
  /\ @GoogleDefaultCredentials Sample.parser (Sample.environment "<service account>")
     = Returns (make_shared (ServiceAccountCredentials "<service account>" "/adc.json"))
  /\ @GoogleDefaultCredentials Sample.parser (Sample.environment "<external account>")
     = Throws (runtime_error (unsupported_type_message "external_account" "/adc.json"))
  /\ @GoogleDefaultCredentials Sample.parser (Sample.environment "<no type>")
     = Throws (runtime_error (unsupported_type_message "no type given" "/adc.json"))
  /\ @GoogleDefaultCredentials
       (fun _ => Some (nl.object [("type", nl.number 7)]))
       (Sample.environment "anything")
     = Throws (type_error 302).
Proof.
  split; [|split; [|split; [|split]]].
  - apply (proj1 (GoogleDefaultCredentials_by_type_field
                    Sample.parser (Sample.environment "<authorized user>")
                    "<authorized user>" _ ltac:(discriminate) eq_refl eq_refl)).
    reflexivity.
  - apply (proj1 (proj2 (GoogleDefaultCredentials_by_type_field
                    Sample.parser (Sample.environment "<service account>")
                    "<service account>" _ ltac:(discriminate) eq_refl eq_refl))).
    reflexivity.
  - apply (proj1 (proj2 (proj2 (GoogleDefaultCredentials_by_type_field
                    Sample.parser (Sample.environment "<external account>")
                    "<external account>" _ ltac:(discriminate) eq_refl eq_refl)))
             "external_account").
    + left. reflexivity.
    + discriminate.
    + discriminate.
  - apply (proj1 (proj2 (proj2 (GoogleDefaultCredentials_by_type_field
                    Sample.parser (Sample.environment "<no type>")
                    "<no type>" _ ltac:(discriminate) eq_refl eq_refl)))
             "no type given").
    + right. split; reflexivity.
    + discriminate.
    + discriminate.
  - apply (proj1 (proj2 (proj2 (proj2 (GoogleDefaultCredentials_by_type_field
                    (fun _ => Some (nl.object [("type", nl.number 7)]))
                    (Sample.environment "anything")
                    "anything" [("type", nl.number 7)]
                    ltac:(discriminate) eq_refl eq_refl))))
             (nl.number 7)).
    + reflexivity.
    + discriminate.
Defined.

(** A [type] field that is not a string makes the JSON library raise its
    own [type_error], and a file that cannot be opened or parsed, or no file
    at all, raises a runtime error. *)
Example GoogleDefaultCredentials_numeric_type :
  @GoogleDefaultCredentials
     (fun _ => Some (nl.object [("type", nl.number 7)]))
     (Sample.environment "anything")
  = Throws (type_error 302).
Proof. reflexivity. Qed.

Example GoogleDefaultCredentials_no_file :
  @GoogleDefaultCredentials Sample.parser
     {| GoogleAdcFilePathOrEmpty := ""; read_file := fun _ => cannot_open |}
  = Throws (runtime_error
              "No eligible credential types were found to use as default credentials.").
Proof. reflexivity. Qed.

End DefaultCredentialsFacts.

(** ** Backoff delays *)


Section BackoffFacts.
Import BackoffPolicy_.

Lemma OnCompletion_well_formed (p : BackoffPolicy) :
  well_formed p ->
  well_formed (snd (OnCompletion p))
  /\ fst (OnCompletion p) = current_delay p
  /\ current_delay p <= current_delay (snd (OnCompletion p))
  /\ maximum_delay (snd (OnCompletion p)) = maximum_delay p.
Proof.
  intros [[Hlo Hhi] [Hden Hnum]]. unfold well_formed, OnCompletion. simpl.
  assert (Hgrow : current_delay p <= current_delay p * scaling_num p / scaling_den p).
  { apply Z.div_le_lower_bound; [lia | nia]. }
  repeat split; lia.
Qed.

Lemma delays_head (n : nat) (p : BackoffPolicy) (d : duration) :
  d <= current_delay p -> HdRel Z.le d (delays n p).
Proof.
  intros Hd. destruct n; simpl; constructor. exact Hd.
Qed.

(** For every well-formed policy the delays never decrease and never exceed
    the maximum. *)
Lemma delays_sorted_and_bounded (n : nat) (p : BackoffPolicy) :
  well_formed p ->
  Sorted Z.le (delays n p) /\ Forall (fun d => d <= maximum_delay p) (delays n p).
Proof.
  revert p; induction n as [|n IH]; intros p Hwf; simpl.
  - split; constructor.
  - destruct (OnCompletion_well_formed p Hwf) as (Hwf' & _ & Hle & Hmax).
    destruct (IH _ Hwf') as [Hsorted Hbounded].
    rewrite Hmax in Hbounded. split.
    + constructor; [exact Hsorted | apply delays_head; exact Hle].
    + constructor; [destruct Hwf as [[_ ?] _]; assumption | exact Hbounded].
Qed.

(** The delays of the default policy in closed form. *)
Lemma delays_default_closed_form (n k : nat) :
  delays n {| initial_delay := chrono.milliseconds 10;
              maximum_delay := chrono.minutes 5;
              scaling_num := 2; scaling_den := 1;
              current_delay :=
                Z.min (chrono.milliseconds 10 * 2 ^ Z.of_nat k) (chrono.minutes 5) |}
  = map (fun i => Z.min (chrono.milliseconds 10 * 2 ^ Z.of_nat i) (chrono.minutes 5))
        (seq k n).
Proof.
  change (chrono.milliseconds 10) with 10000000.
  change (chrono.minutes 5) with 300000000000.
  revert k; induction n as [|n IH]; intros k; [reflexivity|].
  cbn [delays OnCompletion seq map current_delay maximum_delay scaling_num
       scaling_den initial_delay].
  f_equal. rewrite <- IH. do 2 f_equal.
  rewrite Z.div_1_r, Nat2Z.inj_succ, Z.pow_succ_r by apply Nat2Z.is_nonneg.
  lia.
Qed.

(** C6.  The delays produced by successive calls of [OnCompletion] on the
    exponential policy with initial delay 10 ms, maximum delay 5 minutes
    and scaling factor 2.0 never decrease, never exceed the maximum, and are
    10 ms, 20 ms, 40 ms, ... capped at 5 minutes. *)
Theorem default_backoff_delays :
  forall n : nat,
    let policy :=
      ExponentialBackoff STORAGE_CLIENT_DEFAULT_INITIAL_BACKOFF_DELAY
                         STORAGE_CLIENT_DEFAULT_MAXIMUM_BACKOFF_DELAY
                         (fst STORAGE_CLIENT_DEFAULT_BACKOFF_SCALING)
                         (snd STORAGE_CLIENT_DEFAULT_BACKOFF_SCALING) in
    Sorted Z.le (delays n policy)
    /\ Forall (fun d => d <= chrono.minutes 5) (delays n policy)
    /\ delays n policy
       = map (fun i => Z.min (chrono.milliseconds 10 * 2 ^ Z.of_nat i) (chrono.minutes 5))
             (seq 0 n).
Proof.
  intros n policy.
  assert (Hwf : well_formed policy)
    by (cbv; repeat split; solve [reflexivity | discriminate]).
  destruct (delays_sorted_and_bounded n policy Hwf) as [Hsorted Hbounded].
  split; [exact Hsorted | split; [exact Hbounded|]].
  exact (delays_default_closed_form n 0).
Qed.

Example default_backoff_first_delays :
  delays 17 (ExponentialBackoff 10 300000 2 1)
  = [10; 20; 40; 80; 160; 320; 640; 1280; 2560; 5120; 10240; 20480; 40960;
     81920; 163840; 300000; 300000].
Proof. reflexivity. Qed.

End BackoffFacts.

(** ** Policy overrides *)

Section OverrideFacts.

(** Walking a list of overrides with a step that, in one category, installs
    the clone of a matching argument and skips the others leaves the clone of
    the last matching argument. *)
Lemma fold_left_honored {Obj A P : Type} `{Cloneable P}
    (step : Obj -> A -> Obj) (get : Obj -> P) (pick : A -> option P) :
  (forall s a, get (step s a) = honored (pick a) (get s)) ->
  forall (l : list A) (s : Obj),
    get (fold_left step l s) = honored (last_of pick l) (get s).
Proof.
  intros Hstep l. induction l as [|a l IH]; intros s; simpl; [reflexivity|].
  rewrite IH, Hstep.
  destruct (last_of pick l); [reflexivity|]. reflexivity.
Qed.

Lemma ApplyPolicies_fold (self : AuthorizedUserCredentials)
    (policies : list AuthorizedUserCredentials_.Policy) :
  AuthorizedUserCredentials_.ApplyPolicies self policies
  = fold_left AuthorizedUserCredentials_.Apply policies self.
Proof. revert self; induction policies; intros; simpl; auto. Qed.

Lemma ApplyPolicies_honored (self : AuthorizedUserCredentials)
    (policies : list AuthorizedUserCredentials_.Policy) :
  let self' := AuthorizedUserCredentials_.ApplyPolicies self policies in
  retry_policy_ self' = honored (last_of storage_retry policies) (retry_policy_ self)
  /\ backoff_policy_ self'
     = honored (last_of storage_backoff policies) (backoff_policy_ self).
Proof.
  simpl. rewrite ApplyPolicies_fold. split.
  - apply (fold_left_honored AuthorizedUserCredentials_.Apply retry_policy_).
    intros s [p|p]; reflexivity.
  - apply (fold_left_honored AuthorizedUserCredentials_.Apply backoff_policy_).
    intros s [p|p]; reflexivity.
Qed.

Context {R B P : Type} `{Cloneable R} `{Cloneable B} `{Cloneable P}.
Context `{@bigtable.Defaults R B P}.

Lemma ChangePolicies_fold (self : @bigtable.TableAdmin R B P)
    (policies : list (@bigtable.Policy R B P)) :
  bigtable.ChangePolicies self policies
  = fold_left bigtable.ChangePolicy policies self.
Proof. revert self; induction policies; intros; simpl; auto. Qed.

(** C7.  Of the policy overrides passed to a constructor, the last one of
    each category is honored: after [TableAdmin]'s constructor the retry,
    backoff and polling policy are each the clone of the last override of
    that category, or the default when there is none; [ApplyPolicies] does
    the same for the retry and backoff policy of an
    [AuthorizedUserCredentials], whose constructor starts from the default
    time-bounded retry policy and the default exponential backoff. *)
Theorem last_override_of_each_category_wins :
  (forall (client : bigtable.AdminClient) (instance_id : string)
          (policies : list (@bigtable.Policy R B P)),
      let admin := bigtable.new_with_policies client instance_id policies in
      bigtable.rpc_retry_policy_ admin
        = honored (last_of bigtable_retry policies) bigtable.DefaultRPCRetryPolicy
      /\ bigtable.rpc_backoff_policy_ admin
        = honored (last_of bigtable_backoff policies) bigtable.DefaultRPCBackoffPolicy
      /\ bigtable.polling_policy_ admin
        = honored (last_of bigtable_polling policies) bigtable.DefaultPollingPolicy)
  /\ (forall (self : AuthorizedUserCredentials)
             (policies : list AuthorizedUserCredentials_.Policy),
        let self' := AuthorizedUserCredentials_.ApplyPolicies self policies in
        retry_policy_ self'
          = honored (last_of storage_retry policies) (retry_policy_ self)
        /\ backoff_policy_ self'
          = honored (last_of storage_backoff policies) (backoff_policy_ self))
  /\ (forall (parser : nl.Parser) (builder : HttpRequestBuilder)
             (content oauth_server : string)
             (policies : list AuthorizedUserCredentials_.Policy) (now : time_point),
        match AuthorizedUserCredentials_.new_with_policies
                content oauth_server policies now with
        | Returns self =>
            retry_policy_ self
              = honored (last_of storage_retry policies)
                  (RetryPolicy_.LimitedTime (chrono.minutes 15) now)
            /\ backoff_policy_ self
              = honored (last_of storage_backoff policies)
                  (BackoffPolicy_.ExponentialBackoff
                     (chrono.milliseconds 10) (chrono.minutes 5) 2 1)
        | Throws e =>
            AuthorizedUserCredentials_.new content oauth_server now = Throws e
        end).
Proof.
  split; [|split].
  - intros client instance_id policies admin. subst admin.
    unfold bigtable.new_with_policies. rewrite ChangePolicies_fold.
    repeat split.
    + rewrite (fold_left_honored bigtable.ChangePolicy bigtable.rpc_retry_policy_
                 bigtable_retry); [reflexivity|].
      intros s [p|p|p]; reflexivity.
    + rewrite (fold_left_honored bigtable.ChangePolicy bigtable.rpc_backoff_policy_
                 bigtable_backoff); [reflexivity|].
      intros s [p|p|p]; reflexivity.
    + rewrite (fold_left_honored bigtable.ChangePolicy bigtable.polling_policy_
                 bigtable_polling); [reflexivity|].
      intros s [p|p|p]; reflexivity.
  - exact ApplyPolicies_honored.
  - intros parser builder content oauth_server policies now.
    unfold AuthorizedUserCredentials_.new_with_policies.
    destruct (AuthorizedUserCredentials_.new content oauth_server now)
      as [self|e] eqn:Hnew; simpl; [|reflexivity].
    destruct (ApplyPolicies_honored self policies) as [-> ->].
    assert (retry_policy_ self = RetryPolicy_.LimitedTime (chrono.minutes 15) now
            /\ backoff_policy_ self
               = BackoffPolicy_.ExponentialBackoff
                   (chrono.milliseconds 10) (chrono.minutes 5) 2 1) as [-> ->];
      [|split; reflexivity].
    revert Hnew. unfold AuthorizedUserCredentials_.new.
    destruct (nl.parse content) as [credentials|]; simpl; [|discriminate].
    destruct (nl.subscript credentials "client_id") as [j1|]; simpl; [|discriminate].
    destruct (nl.to_string j1) as [client_id|]; simpl; [|discriminate].
    destruct (nl.subscript credentials "client_secret") as [j2|]; simpl; [|discriminate].
    destruct (nl.to_string j2) as [client_secret|]; simpl; [|discriminate].
    destruct (nl.subscript credentials "refresh_token") as [j3|]; simpl; [|discriminate].
    destruct (nl.to_string j3) as [refresh_token|]; simpl; [|discriminate].
    intros [= <-]. split; reflexivity.
Qed.

End OverrideFacts.

Example ApplyPolicies_last_retry_wins :
  retry_policy_
    (AuthorizedUserCredentials_.ApplyPolicies (Sample.stale_credentials 1)
       [AuthorizedUserCredentials_.Retry (RetryPolicy_.LimitedErrorCount 3);
        AuthorizedUserCredentials_.Backoff (BackoffPolicy_.ExponentialBackoff 20 1000 3 1);
        AuthorizedUserCredentials_.Retry (RetryPolicy_.LimitedErrorCount 7)])
  = RetryPolicy_.LimitedErrorCount 7.
Proof. reflexivity. Qed.

Example new_with_policies_keeps_default_retry :
  match @AuthorizedUserCredentials_.new_with_policies Sample.parser Sample.builder
          "<authorized user>" "https://accounts.google.com/o/oauth2/token"
          [AuthorizedUserCredentials_.Backoff (BackoffPolicy_.ExponentialBackoff 20 1000 3 1)]
          1000 with
  | Returns self =>
      retry_policy_ self
      = LimitedTimeRetryPolicy (chrono.minutes 15) (1000 + chrono.minutes 15)
      /\ current_delay (backoff_policy_ self) = 20
      /\ body (request_ self)
         = "grant_type=refresh_token&client_id=id&client_secret=secret&refresh_token=token"
  | Throws _ => False
  end.
Proof. repeat split. Qed.

(** ** Token refresh *)

Section RefreshFacts.
Import AuthorizedUserCredentials_.
Context {parser : nl.Parser} {constants : CredentialConstants}.

(** The loop stores a token only as the last step of handling one 200
    response whose body went through every parsing step; on every other exit
    the cached pair is the one it started with. *)
Lemma RefreshLoop_token (fuel : nat) :
  forall (self : AuthorizedUserCredentials) (w : World),
    match RefreshLoop fuel self w with
    | Done true self' w' =>
        exists i,
          (requests_made w <= i < requests_made w')%nat
          /\ HttpResponse.status_code (server w i) = 200
          /\ ParseAccessToken (HttpResponse.payload (server w i)) (clock w')
             = Returns (authorization_header_ self', expiration_time_ self')
    | Done false self' w' =>
        authorization_header_ self' = authorization_header_ self
        /\ expiration_time_ self' = expiration_time_ self
    | Raised e self' w' =>
        authorization_header_ self' = authorization_header_ self
        /\ expiration_time_ self' = expiration_time_ self
        /\ exists i,
             (requests_made w <= i < requests_made w')%nat
             /\ HttpResponse.status_code (server w i) = 200
             /\ ParseAccessToken (HttpResponse.payload (server w i)) (clock w')
                = Throws e
    | OutOfFuel => True
    end.
Proof.
  induction fuel as [|fuel IH]; intros self w; simpl; [exact I|].
  destruct (RetryPolicy_.IsExhausted (retry_policy_ self) (clock w)); [auto|].
  destruct (HttpResponse.status_code (server w (requests_made w)) =? 200) eqn:H200.
  - apply Z.eqb_eq in H200.
    destruct (ParseAccessToken _ _) as [[header new_expiration]|e] eqn:Hparse.
    + exists (requests_made w). simpl. repeat split; auto.
    + repeat split. exists (requests_made w). simpl. repeat split; auto.
  - destruct (RetryPolicy_.OnFailure _ _ _) as [retry policy].
    destruct retry; simpl; [|auto].
    specialize (IH
      (set_backoff_policy (set_retry_policy self policy)
         (snd (BackoffPolicy_.OnCompletion (backoff_policy_ self))))
      (sleep_for (current_delay (backoff_policy_ self))
         {| clock := clock w; requests_made := S (requests_made w);
            server := server w |})).
    simpl in IH.
    destruct (RefreshLoop fuel _ _) as [[|] self' w'|e self' w'|]; auto.
    + destruct IH as (i & Hi & Hrest). exists i. split; [lia | exact Hrest].
    + destruct IH as (Hh & He & i & Hi & Hrest).
      repeat split; auto. exists i. split; [lia | exact Hrest].
Qed.

(** C2.  [Refresh] changes [authorization_header_] and [expiration_time_]
    only together and only after a 200 response has been parsed in full:
    when it reports success, the pair is either the cached one (the token was
    still fresh) or the header and expiration computed from one response;
    when it reports failure, and when a parsing step raises an exception, both
    are exactly what they were before the call. *)
Theorem Refresh_updates_token_atomically :
  forall (fuel : nat) (self : AuthorizedUserCredentials) (w : World),
    match Refresh fuel self w with
    | Done true self' w' =>
        (authorization_header_ self' = authorization_header_ self
         /\ expiration_time_ self' = expiration_time_ self
         /\ requests_made w' = requests_made w)
        \/ exists i,
             (requests_made w <= i < requests_made w')%nat
             /\ HttpResponse.status_code (server w i) = 200
             /\ ParseAccessToken (HttpResponse.payload (server w i)) (clock w')
                = Returns (authorization_header_ self', expiration_time_ self')
    | Done false self' w' =>
        authorization_header_ self' = authorization_header_ self
        /\ expiration_time_ self' = expiration_time_ self
    | Raised e self' w' =>
        authorization_header_ self' = authorization_header_ self
        /\ expiration_time_ self' = expiration_time_ self
        /\ exists i,
             (requests_made w <= i < requests_made w')%nat
             /\ HttpResponse.status_code (server w i) = 200
             /\ ParseAccessToken (HttpResponse.payload (server w i)) (clock w')
                = Throws e
    | OutOfFuel => True
    end.
Proof.
  intros fuel self w. unfold Refresh.
  destruct (clock w <? expiration_time_ self).
  - left. auto.
  - pose proof (RefreshLoop_token fuel self w) as Hloop.
    destruct (RefreshLoop fuel self w) as [[|] self' w'|e self' w'|]; auto.
Qed.

(** C3.  While the expiration of the cached token is strictly in the future,
    [AuthorizationHeader] returns the cached header at once: the object and
    its surroundings, and with them the count of [MakeRequest] calls, are
    untouched. *)
Theorem AuthorizationHeader_fresh_token :
  forall (fuel : nat) (wakeups : list nat)
         (self : AuthorizedUserCredentials) (w : World),
    clock w < expiration_time_ self ->
    AuthorizationHeader fuel wakeups self w
    = Returned (authorization_header_ self) self w.
Proof.
  intros fuel wakeups self w Hfresh.
  destruct wakeups; simpl; unfold Refresh;
    apply Z.ltb_lt in Hfresh; rewrite Hfresh; reflexivity.
Qed.

(** A transient status is never 200. *)
Lemma transient_not_200 (code : Z) :
  IsTransientFailure {| status_code := code |} = true -> (code =? 200) = false.
Proof.
  unfold IsTransientFailure. simpl. intros Ht. apply Z.eqb_neq. intros ->.
  discriminate Ht.
Qed.

(** The loop under a count-bounded policy that has seen [k] of its [N]
    failures, against an endpoint whose every answer is a transient failure:
    it makes [N - k] requests and reports failure with the budget used up. *)
Lemma RefreshLoop_count_bounded (n : nat) :
  forall (fuel : nat) (self : AuthorizedUserCredentials) (w : World) (k N : nat),
    retry_policy_ self = LimitedErrorCountRetryPolicy N k ->
    (k + n = N)%nat ->
    (forall i, IsTransientFailure
                 {| status_code := HttpResponse.status_code (server w i) |} = true) ->
    (n < fuel)%nat ->
    exists self' w',
      RefreshLoop fuel self w = Done false self' w'
      /\ requests_made w' = (requests_made w + n)%nat
      /\ retry_policy_ self' = LimitedErrorCountRetryPolicy N N
      /\ authorization_header_ self' = authorization_header_ self
      /\ expiration_time_ self' = expiration_time_ self
      /\ server w' = server w
      /\ (BackoffPolicy_.well_formed (backoff_policy_ self) -> clock w <= clock w').
Proof.
  induction n as [|n IH]; intros fuel self w k N Hpolicy Hsum Htransient Hfuel;
    (destruct fuel as [|fuel]; [lia|]); simpl; rewrite Hpolicy; simpl.
  - assert (k = N) by lia. subst k. rewrite Nat.leb_refl.
    exists self, w. rewrite Hpolicy, Nat.add_0_r. repeat split; auto. lia.
  - assert (Hk : (N <=? k)%nat = false) by (apply Nat.leb_gt; lia).
    rewrite Hk, (transient_not_200 _ (Htransient (requests_made w))).
    unfold RetryPolicy_.OnFailure. rewrite Htransient. simpl.
    destruct (N <=? S k)%nat eqn:Hlast; simpl.
    + apply Nat.leb_le in Hlast. assert (n = 0%nat) by lia. subst n.
      assert (S k = N) by lia. subst N.
      eexists _, _. split; [reflexivity|]. simpl.
      repeat split; auto; lia.
    + apply Nat.leb_gt in Hlast.
      edestruct (IH fuel
        (set_backoff_policy
           (set_retry_policy self (LimitedErrorCountRetryPolicy N (S k)))
           (snd (BackoffPolicy_.OnCompletion (backoff_policy_ self))))
        (sleep_for (current_delay (backoff_policy_ self))
           {| clock := clock w; requests_made := S (requests_made w);
              server := server w |})
        (S k) N)
        as (self' & w' & Hrun & Hreq & Hpol & Hh & He & Hs & Hclock);
        [reflexivity | lia | exact Htransient | lia |].
      exists self', w'. split; [exact Hrun|]. simpl in *.
      repeat split; auto; try lia.
      intros Hwf.
      destruct (OnCompletion_well_formed _ Hwf) as (Hwf' & _).
      specialize (Hclock Hwf'). destruct Hwf as [[Hdelay _] _]. lia.
Qed.

End RefreshFacts.

(** ** Retry budget *)

Section BudgetFacts.
Import AuthorizedUserCredentials_.
Context {parser : nl.Parser} {constants : CredentialConstants}.

(** The first retry sequence.  When the token is stale, the retry policy is
    a count-bounded policy freshly configured with limit [N], and every answer
    of the endpoint is a transient failure, [Refresh] calls [MakeRequest]
    exactly [N] times and then reports failure with the retry budget
    exhausted. *)
Theorem Refresh_count_bounded_attempts :
  forall (N fuel : nat) (self : AuthorizedUserCredentials) (w : World),
    retry_policy_ self = RetryPolicy_.LimitedErrorCount N ->
    expiration_time_ self <= clock w ->
    (forall i, IsTransientFailure
                 {| status_code := HttpResponse.status_code (server w i) |} = true) ->
    (N < fuel)%nat ->
    exists self' w',
      Refresh fuel self w = Done false self' w'
      /\ requests_made w' = (requests_made w + N)%nat
      /\ RetryPolicy_.IsExhausted (retry_policy_ self') (clock w') = true.
Proof.
  intros N fuel self w Hpolicy Hstale Htransient Hfuel.
  destruct (RefreshLoop_count_bounded N fuel self w 0 N Hpolicy eq_refl Htransient Hfuel)
    as (self' & w' & Hrun & Hreq & Hpol & _).
  exists self', w'. unfold Refresh.
  apply Z.ltb_ge in Hstale. rewrite Hstale, Hpol. simpl.
  rewrite Nat.leb_refl. auto.
Qed.

(** Once a count-bounded budget is used up and the token is stale, every
    evaluation of the wait predicate fails without a request, so the calling
    thread goes back to waiting at every wake-up. *)
Lemma AuthorizationHeader_exhausted (fuel : nat) (wakeups : list nat) :
  forall (self : AuthorizedUserCredentials) (w : World) (N k : nat),
    retry_policy_ self = LimitedErrorCountRetryPolicy N k ->
    (N <= k)%nat ->
    expiration_time_ self <= clock w ->
    exists w',
      AuthorizationHeader (S fuel) wakeups self w = Blocked self w'
      /\ requests_made w' = requests_made w.
Proof.
  induction wakeups as [|waited wakeups IH]; intros self w N k Hpolicy Hk Hstale;
    simpl; unfold Refresh; simpl;
    pose proof Hstale as Hltb; apply Z.ltb_ge in Hltb; rewrite Hltb, Hpolicy; simpl;
    apply Nat.leb_le in Hk; rewrite Hk.
  - exists w. auto.
  - apply Nat.leb_le in Hk.
    destruct (IH self (sleep_for (Z.of_nat waited) w) N k Hpolicy Hk) as (w' & Hrun & Hreq).
    + simpl. lia.
    + exists w'. simpl in Hrun. unfold Refresh in Hrun. split; [exact Hrun | exact Hreq].
Qed.

(** A call that finds the token stale and meets only transient failures
    under a count-bounded policy never returns: after the [N] requests the
    thread is waiting on [cv_], whatever wake-ups follow. *)
Lemma AuthorizationHeader_count_bounded (N fuel : nat) (wakeups : list nat)
    (self : AuthorizedUserCredentials) (w : World) :
  retry_policy_ self = RetryPolicy_.LimitedErrorCount N ->
  expiration_time_ self <= clock w ->
  (forall i, IsTransientFailure
               {| status_code := HttpResponse.status_code (server w i) |} = true) ->
  BackoffPolicy_.well_formed (backoff_policy_ self) ->
  exists self' w',
    AuthorizationHeader (S N + fuel) wakeups self w = Blocked self' w'
    /\ requests_made w' = (requests_made w + N)%nat
    /\ authorization_header_ self' = authorization_header_ self
    /\ RetryPolicy_.IsExhausted (retry_policy_ self') (clock w') = true.
Proof.
  intros Hpolicy Hstale Htransient Hwf.
  destruct (RefreshLoop_count_bounded N (S N + fuel) self w 0 N Hpolicy eq_refl Htransient)
    as (self' & w' & Hrun & Hreq & Hpol & Hh & He & Hs & Hclock); [lia|].
  specialize (Hclock Hwf).
  assert (Hfirst : Refresh (S N + fuel) self w = Done false self' w').
  { unfold Refresh. apply Z.ltb_ge in Hstale. rewrite Hstale. exact Hrun. }
  destruct wakeups as [|waited wakeups].
  - exists self', w'. simpl AuthorizationHeader. simpl in Hfirst. rewrite Hfirst.
    rewrite Hpol. simpl. rewrite Nat.leb_refl. auto.
  - destruct (AuthorizationHeader_exhausted (N + fuel) wakeups self'
                (sleep_for (Z.of_nat waited) w') N N Hpol (le_n N))
      as (w'' & Hblocked & Hreq').
    { simpl. lia. }
    exists self', w''. simpl AuthorizationHeader. simpl in Hfirst. rewrite Hfirst.
    simpl in Hblocked. rewrite Hblocked. rewrite Hpol. simpl.
    rewrite Nat.leb_refl. simpl in Hreq'. repeat split; auto. lia.
Qed.

End BudgetFacts.

Section BudgetExamples.
Import AuthorizedUserCredentials_.
Existing Instance Sample.parser.
Existing Instance Sample.constants.

Lemma Refresh_count_bounded_attempts_witness :
  exists self' w',
    Refresh 4 (Sample.stale_credentials 3) Sample.failing_world = Done false self' w'
    /\ requests_made w' = 3%nat
    /\ RetryPolicy_.IsExhausted (retry_policy_ self') (clock w') = true.
Proof.
  apply (Refresh_count_bounded_attempts 3 4 (Sample.stale_credentials 3)
           Sample.failing_world).
  - reflexivity.
  - discriminate.
  - intros i. reflexivity.
  - lia.
Defined.

Lemma AuthorizationHeader_fresh_token_witness :
  AuthorizationHeader 0 []
    (Sample.with_token (Sample.stale_credentials 3) "Authorization: Bearer abc" 5000)
    Sample.failing_world
  = Returned "Authorization: Bearer abc"
      (Sample.with_token (Sample.stale_credentials 3) "Authorization: Bearer abc" 5000)
      Sample.failing_world.
Proof.
  apply (AuthorizationHeader_fresh_token 0 []
           (Sample.with_token (Sample.stale_credentials 3) "Authorization: Bearer abc" 5000)
           Sample.failing_world).
  reflexivity.
Defined.

(** C1, on the code: with a count-bounded policy of any limit [N], a stale
    token and an endpoint that answers 503 to every request, the call makes
    its [N] requests and then stays inside [cv_.wait] however often the thread
    is woken: it neither returns nor raises, so no error reaches the caller. *)
Theorem AuthorizationHeader_blocks_after_exhaustion :
  forall (N extra : nat) (wakeups : list nat),
    exists self' w',
      AuthorizationHeader (S N + extra) wakeups
        (Sample.stale_credentials N) Sample.failing_world
      = Blocked self' w'
      /\ requests_made w' = N
      /\ authorization_header_ self' = ""
      /\ RetryPolicy_.IsExhausted (retry_policy_ self') (clock w') = true.
Proof.
  intros N extra wakeups.
  destruct (AuthorizationHeader_count_bounded N extra wakeups
              (Sample.stale_credentials N) Sample.failing_world)
    as (self' & w' & Hrun & Hreq & Hh & Hex).
  - reflexivity.
  - discriminate.
  - intros i. reflexivity.
  - cbv. repeat split; solve [reflexivity | discriminate].
  - exists self', w'. auto.
Qed.

Example AuthorizationHeader_blocks_limit_2 :
  exists self' w',
    AuthorizationHeader 5 [100%nat; 2000%nat; 5000%nat]
      (Sample.stale_credentials 2) Sample.failing_world
    = Blocked self' w'
    /\ requests_made w' = 2%nat
    /\ clock w' = 1000 + 10 + 100 + 2000 + 5000.
Proof. eexists _, _. split; [reflexivity|]. split; reflexivity. Qed.

(** C5, on the code: [Refresh] works on the policy objects stored in the
    credentials, not on clones made for the call.  With a limit of two
    failures, a first call that meets one 503 and then a token succeeds and
    leaves one failure counted; when the token has expired, a second call
    that meets the same answers gives up after a single request and blocks,
    whereas the same call started with the policy as configured returns the
    header. *)
Theorem Refresh_budget_is_shared_between_calls :
  exists self1 w1 self2 w2 self3 w3,
    AuthorizationHeader 5 [] (Sample.stale_credentials 2) Sample.flaky_world
    = Returned "Authorization: Bearer abc" self1 w1
    /\ retry_policy_ self1 = LimitedErrorCountRetryPolicy 2 1
    /\ requests_made w1 = 2%nat
    /\ expiration_time_ self1 = 1010 + chrono.seconds 3600 - chrono.seconds 500
    /\ AuthorizationHeader 5 [] self1 (sleep_for (chrono.seconds 3600) w1)
       = Blocked self2 w2
    /\ requests_made w2 = 3%nat
    /\ AuthorizationHeader 5 []
         (set_retry_policy self1 (clone (retry_policy_ (Sample.stale_credentials 2))))
         (sleep_for (chrono.seconds 3600) w1)
       = Returned "Authorization: Bearer abc" self3 w3
    /\ requests_made w3 = 4%nat.
Proof.
  eexists _, _, _, _, _, _.
  split; [reflexivity|]. split; [reflexivity|]. split; [reflexivity|].
  split; [reflexivity|]. split; [reflexivity|]. split; [reflexivity|].
  split; reflexivity.
Qed.


(** A parsing step that fails leaves the cached token alone: the answer
    without [id_token] raises [type_error] 302. *)
Example Refresh_missing_id_token :
  Refresh 5
    (Sample.with_token (Sample.stale_credentials 2) "Authorization: Bearer old" 500)
    {| clock := 1000; requests_made := 0;
       server := fun _ => Sample.ok "<token without id_token>" |}
  = Raised (type_error 302)
      (Sample.with_token (Sample.stale_credentials 2) "Authorization: Bearer old" 500)
      {| clock := 1000; requests_made := 1;
         server := fun _ => Sample.ok "<token without id_token>" |}.
Proof. reflexivity. Qed.

End BudgetExamples.

(** ** Clones made by [TableAdmin::AsyncGetTable] *)

(** Every asynchronous request gets clones of the policies of the
    [TableAdmin], whose own policies are not touched: two requests started
    from the same object start from the same budget. *)
Remark AsyncGetTable_clones_policies
    {R B P : Type} `{Cloneable R} `{Cloneable B} `{Cloneable P}
    (self : @bigtable.TableAdmin R B P) (table_id table_id' : string)
    (v v' : bigtable.View) :
  bigtable.op_rpc_retry_policy (bigtable.AsyncGetTable self table_id v)
  = clone (bigtable.rpc_retry_policy_ self)
  /\ bigtable.op_rpc_backoff_policy (bigtable.AsyncGetTable self table_id v)
     = clone (bigtable.rpc_backoff_policy_ self)
  /\ bigtable.op_rpc_retry_policy (bigtable.AsyncGetTable self table_id' v')
     = bigtable.op_rpc_retry_policy (bigtable.AsyncGetTable self table_id v).
Proof. repeat split. Qed.

(* ===================================================================== *)
(** * Part III: further properties of the code                             *)
(* ===================================================================== *)

(** ** More on strings *)

Lemma append_assoc (a b c : string) : (a ++ b) ++ c = a ++ (b ++ c).
Proof. induction a; simpl; congruence. Qed.

Lemma append_nil_r (a : string) : a ++ "" = a.
Proof. induction a; simpl; congruence. Qed.

Lemma append_cancel_l (a b c : string) : a ++ b = a ++ c -> b = c.
Proof. induction a; simpl; intros Heq; [exact Heq | injection Heq; auto]. Qed.

(** [find] returns the first position at which the needle occurs. *)
Lemma find_first (needle s : string) (pos : nat) :
  std.find needle s = Some pos ->
  forall before after, s = before ++ needle ++ after -> (pos <= String.length before)%nat.
Proof.
  revert pos; induction s as [|c s IH]; intros pos; rewrite find_eq;
    match goal with |- context [prefix ?a ?b] => destruct (prefix a b) eqn:Hp end.
  - intros [= <-] before after _. lia.
  - discriminate.
  - intros [= <-] before after _. lia.
  - destruct (std.find needle s) as [p|] eqn:Hf; simpl; [|discriminate].
    intros [= <-] before after Heq. destruct before as [|d before]; simpl in Heq.
    + assert (prefix needle (String c s) = true) by (apply prefix_app; eauto).
      congruence.
    + injection Heq as _ Heq. specialize (IH p eq_refl before after Heq). simpl. lia.
Qed.

Lemma find_at_start (needle rest : string) :
  std.find needle (needle ++ rest) = Some 0%nat.
Proof.
  rewrite find_eq.
  assert (Hp : prefix needle (needle ++ rest) = true) by (apply prefix_app; eauto).
  rewrite Hp. reflexivity.
Qed.

(** The last selected element of a list decides the result of a walk whose
    steps overwrite on a selected element and skip the others. *)
Lemma fold_left_last_of {Obj A V : Type}
    (step : Obj -> A -> Obj) (get : Obj -> V) (pick : A -> option V) :
  (forall s a, get (step s a) = match pick a with Some v => v | None => get s end) ->
  forall (l : list A) (s : Obj),
    get (fold_left step l s)
    = match last_of pick l with Some v => v | None => get s end.
Proof.
  intros Hstep l. induction l as [|a l IH]; intros s; simpl; [reflexivity|].
  rewrite IH, Hstep. destruct (last_of pick l); reflexivity.
Qed.

(** ** The hash validator over sequences of calls *)

Section ValidatorSequences.
Import MD5HashValidator_.

Lemma perform_context (self : MD5HashValidator) (c : ValidatorCall) :
  context_ (perform self c) = context_ self ++ payload_of c.
Proof.
  destruct c as [payload|meta|key value]; simpl.
  - reflexivity.
  - unfold ProcessMetadata. destruct (std.empty (md5_hash meta)); simpl;
      rewrite append_nil_r; reflexivity.
  - unfold ProcessHeader.
    destruct (negb (key =? "x-goog-hash")%string); simpl;
      [|destruct (std.find "md5=" value); simpl]; rewrite append_nil_r; reflexivity.
Qed.

Lemma perform_received (self : MD5HashValidator) (c : ValidatorCall) :
  received_hash_ (perform self c)
  = match announced_md5 c with Some h => h | None => received_hash_ self end.
Proof.
  destruct c as [payload|meta|key value]; simpl.
  - reflexivity.
  - unfold ProcessMetadata. destruct (std.empty (md5_hash meta)); reflexivity.
  - unfold ProcessHeader.
    destruct (key =? "x-goog-hash")%string; simpl; [|reflexivity].
    destruct (std.find "md5=" value); reflexivity.
Qed.

Lemma perform_all_context (calls : list ValidatorCall) :
  forall self : MD5HashValidator,
    context_ (perform_all self calls)
    = context_ self ++ flatten (map payload_of calls).
Proof.
  unfold perform_all. induction calls as [|c calls IH]; intros self; simpl.
  - rewrite append_nil_r. reflexivity.
  - rewrite IH, perform_context, append_assoc. reflexivity.
Qed.

(** X1.  Whatever calls of [Update], [ProcessMetadata] and [ProcessHeader]
    are made on a validator and in whatever order, the hash that [Finish]
    computes is the encoded digest of the payloads of the [Update] calls,
    concatenated in call order: metadata and headers never reach the digest. *)
Theorem Finish_computed_from_payloads :
  forall (ssl : OpenSsl) (have_exceptions : bool) (calls : list ValidatorCall)
         (msg : string),
    let computed := Base64Encode (MD5 (flatten (map payload_of calls))) in
    match Finish have_exceptions (perform_all new calls) msg with
    | inl result => HashValidator.computed result = computed
    | inr error => computed_hash error = computed
    end.
Proof.
  intros ssl have_exceptions calls msg computed. unfold Finish.
  rewrite (perform_all_context calls new). simpl context_. simpl append.
  fold computed.
  destruct (have_exceptions && _); reflexivity.
Qed.

(** X2.  After any sequence of calls the received hash is the one announced
    by the last call that announced one (a metadata object with a non-empty
    [md5_hash], or an ["x-goog-hash"] header with an ["md5="] part); when no
    call announced one it is still the hash the validator started with. *)
Theorem received_hash_is_last_announced :
  forall (self : MD5HashValidator) (calls : list ValidatorCall),
    received_hash_ (perform_all self calls)
    = match last_of announced_md5 calls with
      | Some h => h
      | None => received_hash_ self
      end.
Proof.
  intros self calls. unfold perform_all.
  apply (fold_left_last_of perform received_hash_ announced_md5).
  exact perform_received.
Qed.

(** X3.  When the value of an ["x-goog-hash"] header contains ["md5="],
    [ProcessHeader] records exactly the text that follows the first
    occurrence, up to the end of the value, and the position it passes to
    [substr] lies within the value, so [substr] cannot throw. *)
Theorem ProcessHeader_records_after_first_md5 :
  forall (self : MD5HashValidator) (value : string),
    contains "md5=" value ->
    exists (pos : nat) (before after : string),
      std.find "md5=" value = Some pos
      /\ (pos + 4 <= String.length value)%nat
      /\ value = before ++ "md5=" ++ after
      /\ String.length before = pos
      /\ (forall b a, value = b ++ "md5=" ++ a -> (String.length before <= String.length b)%nat)
      /\ received_hash_ (ProcessHeader self "x-goog-hash" value) = after.
Proof.
  intros self value Hcontains.
  destruct (std.find "md5=" value) as [pos|] eqn:Hf.
  - destruct (find_Some _ _ _ Hf) as (before & after & Hv & Hlen).
    exists pos, before, after. repeat split; auto.
    + rewrite Hv, <- Hlen, !length_app. simpl. lia.
    + intros b a Hb. rewrite Hlen. exact (find_first _ _ _ Hf b a Hb).
    + unfold ProcessHeader. simpl negb. cbv iota. rewrite Hf. simpl received_hash_.
      rewrite substr_add, <- Hlen, Hv, substr_app. reflexivity.
  - apply find_None in Hf. contradiction.
Qed.

Lemma ProcessHeader_records_after_first_md5_witness :
  exists (pos : nat) (before after : string),
    std.find "md5=" "crc32c=n03x6A==,md5=AAAA" = Some pos
    /\ (pos + 4 <= String.length "crc32c=n03x6A==,md5=AAAA")%nat
    /\ "crc32c=n03x6A==,md5=AAAA" = before ++ "md5=" ++ after
    /\ String.length before = pos
    /\ (forall b a, "crc32c=n03x6A==,md5=AAAA" = b ++ "md5=" ++ a ->
                    (String.length before <= String.length b)%nat)
    /\ received_hash_ (ProcessHeader new "x-goog-hash" "crc32c=n03x6A==,md5=AAAA") = after.
Proof.
  apply (ProcessHeader_records_after_first_md5 new "crc32c=n03x6A==,md5=AAAA").
  exists "crc32c=n03x6A==,", "AAAA". reflexivity.
Defined.

Lemma Update_all_context (chunks : list string) :
  forall self : MD5HashValidator,
    fold_left Update chunks self
    = {| context_ := context_ self ++ flatten chunks;
         received_hash_ := received_hash_ self |}.
Proof.
  induction chunks as [|chunk chunks IH]; intros self; simpl.
  - rewrite append_nil_r. destruct self; reflexivity.
  - rewrite IH. simpl. rewrite append_assoc. reflexivity.
Qed.

(** X4.  A validator that is built by the constructor, fed a payload in any
    number of [Update] chunks and told the encoded digest of the whole
    payload, by an ["x-goog-hash: md5=..."] header or by the metadata,
    finishes without error in either build and reports that hash as both
    received and computed. *)
Theorem Finish_accepts_matching_hash :
  forall (ssl : OpenSsl) (have_exceptions : bool) (chunks : list string)
         (msg : string),
    let fed := fold_left Update chunks new in
    let hash := Base64Encode (MD5 (flatten chunks)) in
    let accepted :=
      inl {| HashValidator.received := hash; HashValidator.computed := hash |} in
    Finish have_exceptions (ProcessHeader fed "x-goog-hash" ("md5=" ++ hash)) msg
      = accepted
    /\ Finish have_exceptions (ProcessMetadata fed {| md5_hash := hash |}) msg
      = accepted.
Proof.
  intros ssl have_exceptions chunks msg fed hash accepted.
  subst fed accepted. rewrite (Update_all_context chunks new). simpl context_.
  simpl received_hash_. change ("" ++ flatten chunks) with (flatten chunks).
  split.
  - unfold ProcessHeader. simpl negb. cbv iota.
    rewrite (find_at_start "md5=" hash). simpl. unfold Finish. simpl. fold hash.
    rewrite String.eqb_refl, andb_false_r, andb_false_r. reflexivity.
  - unfold ProcessMetadata. simpl md5_hash.
    destruct (std.empty hash) eqn:He; unfold Finish; simpl; fold hash.
    + apply empty_true in He. rewrite He. rewrite andb_false_r. reflexivity.
    + rewrite String.eqb_refl, andb_false_r, andb_false_r. reflexivity.
Qed.

End ValidatorSequences.

(** ** More on the default credentials *)

Section CredentialFactories.
Import oauth2.

(** X5.  [GoogleDefaultCredentials] returns a credentials object exactly when
    the credentials path is not empty, the file opens, its contents parse to
    a JSON object, and the [type] field of that object is the string
    ["authorized_user"] or ["service_account"]. *)
Theorem GoogleDefaultCredentials_returns_iff :
  forall (P : nl.Parser) (env : Environment),
    (exists credentials, GoogleDefaultCredentials env = Returns credentials)
    <->
    (exists contents fields cred_type,
        GoogleAdcFilePathOrEmpty env <> ""
        /\ read_file env (GoogleAdcFilePathOrEmpty env) = readable contents
        /\ nl.parse_text contents = Some (nl.object fields)
        /\ nl.lookup "type" fields = Some (nl.str cred_type)
        /\ (cred_type = "authorized_user" \/ cred_type = "service_account")).
Proof.
  intros P env. unfold GoogleDefaultCredentials, RaiseRuntimeError. split.
  - intros [credentials Hrun].
    destruct (std.empty (GoogleAdcFilePathOrEmpty env)) eqn:Hpath; simpl in Hrun;
      [discriminate|].
    destruct (read_file env (GoogleAdcFilePathOrEmpty env)) as [| |contents] eqn:Hread;
      [discriminate|discriminate|].
    destruct (nl.parse_text contents) as [cred_json|] eqn:Hparse; [|discriminate].
    destruct cred_json as [| | | |l|fields| |]; simpl in Hrun; try discriminate.
    destruct (nl.lookup "type" fields) as [v|] eqn:Htype; simpl in Hrun;
      [|discriminate].
    destruct v as [| | |cred_type| | | |]; simpl in Hrun; try discriminate.
    exists contents, fields, cred_type.
    split; [apply empty_false; exact Hpath|].
    do 3 (split; [first [assumption | reflexivity]|]).
    destruct (String.eqb_spec cred_type "authorized_user"); [auto|].
    destruct (String.eqb_spec cred_type "service_account"); [auto|discriminate Hrun].
  - intros (contents & fields & cred_type & Hpath & Hread & Hparse & Htype & Hkind).
    apply empty_false in Hpath. rewrite Hpath, Hread, Hparse. simpl.
    rewrite Htype. simpl.
    destruct Hkind as [-> | ->]; simpl; eauto.
Qed.

(** X6.  Every exception raised by [GoogleDefaultCredentials] is accounted
    for: a runtime error when no path is configured, when the file cannot be
    opened, when its contents are not JSON, and when the [type] is a text
    other than the two supported ones (or absent); the stream's
    [ios_base::failure] when the path opens but cannot be read; the JSON
    library's [type_error] 306 when the contents are JSON but not an object,
    and 302 when the [type] field is not a string.  It never raises
    [parse_error]. *)
Theorem GoogleDefaultCredentials_errors :
  forall (P : nl.Parser) (env : Environment) (e : exception),
    let path := GoogleAdcFilePathOrEmpty env in
    GoogleDefaultCredentials env = Throws e ->
    (path = ""
     /\ e = runtime_error
              "No eligible credential types were found to use as default credentials.")
    \/ (path <> "" /\ read_file env path = cannot_open
        /\ e = runtime_error ("Cannot open credentials file " ++ path))
    \/ (path <> "" /\ read_file env path = unreadable /\ e = ios_base_failure)
    \/ (exists contents,
          read_file env path = readable contents /\ nl.parse_text contents = None
          /\ e = runtime_error ("Invalid contents in credentials file " ++ path))
    \/ (exists contents cred_json,
          read_file env path = readable contents
          /\ nl.parse_text contents = Some cred_json
          /\ (forall fields, cred_json <> nl.object fields)
          /\ e = type_error 306)
    \/ (exists contents fields v,
          read_file env path = readable contents
          /\ nl.parse_text contents = Some (nl.object fields)
          /\ nl.lookup "type" fields = Some v
          /\ (forall text, v <> nl.str text)
          /\ e = type_error 302)
    \/ (exists contents fields cred_type,
          read_file env path = readable contents
          /\ nl.parse_text contents = Some (nl.object fields)
          /\ (nl.lookup "type" fields = Some (nl.str cred_type)
              \/ (nl.lookup "type" fields = None /\ cred_type = "no type given"))
          /\ cred_type <> "authorized_user" /\ cred_type <> "service_account"
          /\ e = runtime_error (unsupported_type_message cred_type path)).
Proof.
  intros P env e path. unfold GoogleDefaultCredentials, RaiseRuntimeError. fold path.
  intros Hrun.
  destruct (std.empty path) eqn:Hpath; simpl in Hrun.
  { injection Hrun as <-. left. split; [apply empty_true; exact Hpath | reflexivity]. }
  apply empty_false in Hpath. right.
  destruct (read_file env path) as [| |contents] eqn:Hread.
  { injection Hrun as <-. left. auto. }
  { injection Hrun as <-. right. left. auto. }
  do 2 right.
  destruct (nl.parse_text contents) as [cred_json|] eqn:Hparse.
  2:{ injection Hrun as <-. left. exists contents. auto. }
  right.
  destruct cred_json as [| | | |l|fields| |];
    try (injection Hrun as <-; left; eexists _, _;
         split; [reflexivity|]; split; [exact Hparse|];
         split; [intros fields; discriminate | reflexivity]).
  right. simpl in Hrun.
  assert (Hunsupported :
            forall cred_type,
              nl.lookup "type" fields = Some (nl.str cred_type)
              \/ (nl.lookup "type" fields = None /\ cred_type = "no type given") ->
              (if (cred_type =? "authorized_user")%string
               then Returns (make_shared (AuthorizedUserCredentials contents path))
               else if (cred_type =? "service_account")%string
                    then Returns (make_shared (ServiceAccountCredentials contents path))
                    else Throws (runtime_error (unsupported_type_message cred_type path)))
              = Throws e ->
              cred_type <> "authorized_user" /\ cred_type <> "service_account"
              /\ e = runtime_error (unsupported_type_message cred_type path)).
  { intros cred_type Hsource.
    destruct (String.eqb_spec cred_type "authorized_user"); [discriminate|].
    destruct (String.eqb_spec cred_type "service_account"); [discriminate|].
    intros [= <-]. auto. }
  destruct (nl.lookup "type" fields) as [v|] eqn:Htype; simpl in Hrun.
  - destruct v as [| | |cred_type| | | |]; simpl in Hrun;
      try (injection Hrun as <-; left; eexists _, _, _;
           split; [reflexivity|]; split; [exact Hparse|];
           split; [exact Htype|]; split; [intros text; discriminate | reflexivity]).
    right. exists contents, fields, cred_type.
    split; [reflexivity|]. split; [exact Hparse|]. split; [left; exact Htype|].
    apply Hunsupported; [left; reflexivity | exact Hrun].
  - right. exists contents, fields, "no type given".
    split; [reflexivity|]. split; [exact Hparse|]. split; [right; split; [exact Htype | reflexivity]|].
    apply Hunsupported; [right; split; reflexivity | exact Hrun].
Qed.

Lemma GoogleDefaultCredentials_errors_witness :
  (oauth2.GoogleAdcFilePathOrEmpty Sample.directory_environment <> ""
   /\ oauth2.read_file Sample.directory_environment "/etc" = unreadable
   /\ ios_base_failure = ios_base_failure).
Proof.
  destruct (GoogleDefaultCredentials_errors
              Sample.parser Sample.directory_environment ios_base_failure eq_refl)
    as [[H _] | [(_ & _ & H) | [H | [(c & _ & _ & H) | [(c & j & _ & _ & _ & H)
       | [(c & f & v & _ & _ & _ & _ & H) | (c & f & t & _ & _ & _ & _ & _ & H)]]]]]].
  - discriminate H.
  - discriminate H.
  - exact H.
  - discriminate H.
  - discriminate H.
  - discriminate H.
  - discriminate H.
Defined.

(** X7.  For a credentials file of a supported type the default credentials
    are the object that the explicit factory for that type builds from the
    same path. *)
Theorem GoogleDefaultCredentials_agrees_with_factories :
  forall (P : nl.Parser) (env : Environment) (contents : string)
         (fields : list (string * nl.json)),
    let path := GoogleAdcFilePathOrEmpty env in
    path <> "" ->
    read_file env path = readable contents ->
    nl.parse_text contents = Some (nl.object fields) ->
    (nl.lookup "type" fields = Some (nl.str "authorized_user") ->
       GoogleDefaultCredentials env
       = CreateAuthorizedUserCredentialsFromJsonFilePath env path)
    /\ (nl.lookup "type" fields = Some (nl.str "service_account") ->
       GoogleDefaultCredentials env
       = CreateServiceAccountCredentialsFromJsonFilePath env path).
Proof.
  intros P env contents fields path Hpath Hread Hparse.
  unfold CreateAuthorizedUserCredentialsFromJsonFilePath,
    CreateServiceAccountCredentialsFromJsonFilePath, read_all,
    GoogleDefaultCredentials.
  fold path. apply empty_false in Hpath. rewrite Hpath, Hread, Hparse. simpl.
  split; intros ->; reflexivity.
Qed.

Lemma GoogleDefaultCredentials_agrees_with_factories_witness :
  @GoogleDefaultCredentials Sample.parser (Sample.environment "<authorized user>")
  = CreateAuthorizedUserCredentialsFromJsonFilePath
      (Sample.environment "<authorized user>") "/adc.json"
  /\ @GoogleDefaultCredentials Sample.parser (Sample.environment "<service account>")
     = CreateServiceAccountCredentialsFromJsonFilePath
         (Sample.environment "<service account>") "/adc.json".
Proof.
  split.
  - apply (proj1 (GoogleDefaultCredentials_agrees_with_factories
                    Sample.parser (Sample.environment "<authorized user>")
                    "<authorized user>" _ ltac:(discriminate) eq_refl eq_refl)).
    reflexivity.
  - apply (proj2 (GoogleDefaultCredentials_agrees_with_factories
                    Sample.parser (Sample.environment "<service account>")
                    "<service account>" _ ltac:(discriminate) eq_refl eq_refl)).
    reflexivity.
Defined.

End CredentialFactories.

(** ** 64-bit sums *)

Lemma int64_range (z : Z) : - 2 ^ 63 <= int64 z < 2 ^ 63.
Proof.
  unfold int64. pose proof (Z.mod_pos_bound (z + 2 ^ 63) (2 ^ 64) ltac:(lia)). lia.
Qed.

Lemma int64_small (z : Z) : - 2 ^ 63 <= z < 2 ^ 63 -> int64 z = z.
Proof. intros Hz. unfold int64. rewrite Z.mod_small; lia. Qed.

Lemma int64_congruent (x y : Z) :
  x mod 2 ^ 64 = y mod 2 ^ 64 -> int64 x = int64 y.
Proof.
  intros Hxy. unfold int64. f_equal.
  rewrite <- (Zplus_mod_idemp_l x), <- (Zplus_mod_idemp_l y), Hxy. reflexivity.
Qed.

Lemma int64_mod (z : Z) : int64 z mod 2 ^ 64 = z mod 2 ^ 64.
Proof.
  unfold int64. rewrite Zminus_mod_idemp_l. f_equal. lia.
Qed.

(** Wrapping every intermediate result gives the wrapped exact result. *)
Lemma int64_sum (now lifetime slack : Z) :
  int64 (int64 (now + int64 lifetime) - int64 slack)
  = int64 (now + lifetime - slack).
Proof.
  apply int64_congruent.
  rewrite <- Zminus_mod_idemp_l, int64_mod, Zminus_mod_idemp_l.
  rewrite <- Zminus_mod_idemp_r, int64_mod, Zminus_mod_idemp_r.
  rewrite <- (Zminus_mod_idemp_l (now + int64 lifetime)).
  rewrite <- (Zplus_mod_idemp_r (int64 lifetime)), int64_mod, Zplus_mod_idemp_r.
  rewrite Zminus_mod_idemp_l. reflexivity.
Qed.

(** ** Reading fields of a JSON value *)

Lemma string_field (j : nl.json) (key s : string) :
  (x <- nl.subscript j key ;; nl.to_string x) = Returns s
  <-> exists fields, j = nl.object fields /\ nl.lookup key fields = Some (nl.str s).
Proof.
  split.
  - destruct j as [| | | |l|fields| |]; simpl; try discriminate.
    destruct (nl.lookup key fields) as [v|] eqn:Hv; simpl; [|discriminate].
    destruct v; simpl; try discriminate.
    intros [= ->]. exists fields. auto.
  - intros (fields & -> & Hv). simpl. rewrite Hv. reflexivity.
Qed.

Lemma string_ref_field (j : nl.json) (key s : string) :
  (x <- nl.subscript j key ;; nl.get_ref_string x) = Returns s
  <-> exists fields, j = nl.object fields /\ nl.lookup key fields = Some (nl.str s).
Proof.
  split.
  - destruct j as [| | | |l|fields| |]; simpl; try discriminate.
    destruct (nl.lookup key fields) as [v|] eqn:Hv; simpl; [|discriminate].
    destruct v; simpl; try discriminate.
    intros [= ->]. exists fields. auto.
  - intros (fields & -> & Hv). simpl. rewrite Hv. reflexivity.
Qed.

Lemma integer_field (j : nl.json) (key : string) (n : Z) :
  (x <- nl.subscript j key ;; nl.to_integer x) = Returns n
  <-> exists fields v,
        j = nl.object fields /\ nl.lookup key fields = Some v
        /\ nl.to_integer v = Returns n.
Proof.
  split.
  - destruct j as [| | | |l|fields| |]; simpl; try discriminate.
    destruct (nl.lookup key fields) as [v|] eqn:Hv; simpl; [|discriminate].
    intros Hn. exists fields, v. auto.
  - intros (fields & v & -> & Hv & Hn). simpl. rewrite Hv. exact Hn.
Qed.

(** ** The constructor and the token parser *)

Section ConstructorFacts.
Import AuthorizedUserCredentials_.

(** X8.  The constructor succeeds exactly when the contents parse to a JSON
    object whose [client_id], [client_secret] and [refresh_token] are
    strings.  The object it builds posts the three escaped values to the given
    endpoint as a [refresh_token] grant, holds no token (empty header,
    expiration at the epoch) and carries the default policies. *)
Theorem constructor_succeeds_iff :
  forall (parser : nl.Parser) (builder : HttpRequestBuilder)
         (content oauth_server : string) (now : time_point)
         (self : AuthorizedUserCredentials),
    new content oauth_server now = Returns self
    <->
    exists fields client_id client_secret refresh_token,
      nl.parse_text content = Some (nl.object fields)
      /\ nl.lookup "client_id" fields = Some (nl.str client_id)
      /\ nl.lookup "client_secret" fields = Some (nl.str client_secret)
      /\ nl.lookup "refresh_token" fields = Some (nl.str refresh_token)
      /\ self =
         {| request_ :=
              {| url := oauth_server;
                 body := "grant_type=refresh_token&client_id="
                         ++ MakeEscapedString client_id
                         ++ "&client_secret=" ++ MakeEscapedString client_secret
                         ++ "&refresh_token=" ++ MakeEscapedString refresh_token |};
            authorization_header_ := "";
            expiration_time_ := 0;
            retry_policy_ := RetryPolicy_.LimitedTime (chrono.minutes 15) now;
            backoff_policy_ :=
              BackoffPolicy_.ExponentialBackoff
                (chrono.milliseconds 10) (chrono.minutes 5) 2 1 |}.
Proof.
  intros parser builder content oauth_server now self. unfold new, nl.parse. split.
  - destruct (nl.parse_text content) as [credentials|]; simpl; [|discriminate].
    destruct (x <- nl.subscript credentials "client_id" ;; nl.to_string x)
      as [client_id|] eqn:H1; simpl; [|discriminate].
    destruct (x <- nl.subscript credentials "client_secret" ;; nl.to_string x)
      as [client_secret|] eqn:H2; simpl; [|discriminate].
    destruct (x <- nl.subscript credentials "refresh_token" ;; nl.to_string x)
      as [refresh_token|] eqn:H3; simpl; [|discriminate].
    apply string_field in H1 as (fields & -> & H1).
    apply string_field in H2 as (fields2 & [= <-] & H2).
    apply string_field in H3 as (fields3 & [= <-] & H3).
    intros [= <-]. exists fields, client_id, client_secret, refresh_token.
    repeat split; auto.
    do 2 f_equal. rewrite !append_assoc. reflexivity.
  - intros (fields & client_id & client_secret & refresh_token
            & -> & H1 & H2 & H3 & ->).
    simpl. rewrite H1, H2, H3. simpl.
    do 3 f_equal. rewrite !append_assoc. reflexivity.
Qed.

(** A response body with the four fields parses to the header and the
    expiration. *)
Lemma ParseAccessToken_ok {parser : nl.Parser} {constants : CredentialConstants}
    (payload : string) (now : time_point) (fields : list (string * nl.json))
    (token_type access id : string) (lifetime : nl.json) (expires_in : Z) :
  nl.parse_text payload = Some (nl.object fields) ->
  nl.lookup "token_type" fields = Some (nl.str token_type) ->
  nl.lookup "access_token" fields = Some (nl.str access) ->
  nl.lookup "id_token" fields = Some (nl.str id) ->
  nl.lookup "expires_in" fields = Some lifetime ->
  nl.to_integer lifetime = Returns expires_in ->
  ParseAccessToken payload now
  = Returns ("Authorization: " ++ token_type ++ " " ++ access,
             int64 (now + chrono.seconds expires_in
                    - chrono.seconds GoogleOAuthTokenExpirationSlack)).
Proof.
  intros Hparse H1 H2 H3 H4 H5. unfold ParseAccessToken, nl.parse.
  rewrite Hparse. simpl. rewrite H1, H2, H3, H4. simpl. rewrite H5. simpl.
  rewrite int64_sum. do 2 f_equal.
  rewrite !append_assoc. reflexivity.
Qed.

(** X9.  A 200 response is accepted exactly when its body parses to a JSON
    object in which [token_type], [access_token] and [id_token] are strings
    and [expires_in] is a number, which is converted to a 64-bit count of
    seconds.  The header is then
    ["Authorization: <token_type> <access_token>"] and the expiration is the
    clock reading plus [expires_in] seconds minus the slack, in ticks of the
    clock and reduced to a 64-bit signed integer. *)
Theorem ParseAccessToken_succeeds_iff :
  forall (parser : nl.Parser) (constants : CredentialConstants)
         (payload : string) (now : time_point)
         (header : string) (expiration : time_point),
    ParseAccessToken payload now = Returns (header, expiration)
    <->
    exists fields token_type access id lifetime expires_in,
      nl.parse_text payload = Some (nl.object fields)
      /\ nl.lookup "token_type" fields = Some (nl.str token_type)
      /\ nl.lookup "access_token" fields = Some (nl.str access)
      /\ nl.lookup "id_token" fields = Some (nl.str id)
      /\ nl.lookup "expires_in" fields = Some lifetime
      /\ (lifetime = nl.number expires_in
          \/ (exists n, lifetime = nl.number_unsigned n /\ expires_in = int64 n)
          \/ (exists d, lifetime = nl.number_float d
                        /\ expires_in = double_to_int64 d))
      /\ header = "Authorization: " ++ token_type ++ " " ++ access
      /\ expiration
         = int64 (now + chrono.seconds expires_in
                  - chrono.seconds GoogleOAuthTokenExpirationSlack).
Proof.
  intros parser constants payload now header expiration. split.
  - unfold ParseAccessToken, nl.parse.
    destruct (nl.parse_text payload) as [access_token|] eqn:Hparse; simpl;
      [|discriminate].
    destruct (x <- nl.subscript access_token "token_type" ;; nl.get_ref_string x)
      as [token_type|] eqn:H1; simpl; [|discriminate].
    destruct (x <- nl.subscript access_token "access_token" ;; nl.get_ref_string x)
      as [access|] eqn:H2; simpl; [|discriminate].
    destruct (x <- nl.subscript access_token "id_token" ;; nl.to_string x)
      as [id|] eqn:H3; simpl; [|discriminate].
    destruct (x <- nl.subscript access_token "expires_in" ;; nl.to_integer x)
      as [expires_in|] eqn:H4; simpl; [|discriminate].
    apply string_ref_field in H1 as (fields & -> & H1).
    apply string_ref_field in H2 as (fields2 & [= <-] & H2).
    apply string_field in H3 as (fields3 & [= <-] & H3).
    apply integer_field in H4 as (fields4 & lifetime & [= <-] & H4 & H5).
    rewrite int64_sum. intros [= <- <-].
    exists fields, token_type, access, id, lifetime, expires_in.
    do 5 (split; [first [assumption | reflexivity]|]).
    split; [|split; [rewrite !append_assoc; reflexivity | reflexivity]].
    destruct lifetime; simpl in H5; try discriminate; injection H5 as <-; eauto.
  - intros (fields & token_type & access & id & lifetime & expires_in
            & Hparse & H1 & H2 & H3 & H4 & H5 & -> & ->).
    apply (ParseAccessToken_ok payload now fields token_type access id lifetime
             expires_in Hparse H1 H2 H3 H4).
    destruct H5 as [-> | [(n & -> & ->) | (d & -> & ->)]]; reflexivity.
Qed.

(** A body without [id_token] is refused although the header needs only the
    other fields; a fractional lifetime is truncated; a lifetime too long for
    the 64-bit tick count wraps around to a time before the epoch. *)
Example ParseAccessToken_needs_id_token :
  @ParseAccessToken Sample.parser Sample.constants "<token without id_token>" 1000
  = Throws (type_error 302)
  /\ @ParseAccessToken Sample.parser Sample.constants "<token>" 1000
     = Returns ("Authorization: Bearer abc",
                1000 + chrono.seconds 3600 - chrono.seconds 500)
  /\ @ParseAccessToken Sample.parser Sample.constants
       "<token with fractional expires_in>" 1000
     = Returns ("Authorization: Bearer abc",
                1000 + chrono.seconds 3600 - chrono.seconds 500)
  /\ @ParseAccessToken
       (fun _ => Some (nl.object
                         [("token_type", nl.str "Bearer"); ("access_token", nl.str "abc");
                          ("id_token", nl.str "id");
                          ("expires_in", nl.number_unsigned 10000000000)]))
       Sample.constants "" 1000000000
     = Returns ("Authorization: Bearer abc", -8446744572709551616).
Proof. repeat split. Qed.

End ConstructorFacts.

(** ** More on refreshing *)

Section RefreshDiscipline.
Import AuthorizedUserCredentials_.
Context {parser : nl.Parser} {constants : CredentialConstants}.

(** Which requests a run of the loop has made, and what became of the
    world around it. *)
Lemma RefreshLoop_requests (fuel : nat) :
  forall (self : AuthorizedUserCredentials) (w : World),
    match RefreshLoop fuel self w with
    | Done true self' w' | Raised _ self' w' =>
        server w' = server w
        /\ request_ self' = request_ self
        /\ exists i,
             requests_made w' = S i
             /\ (requests_made w <= i)%nat
             /\ HttpResponse.status_code (server w i) = 200
             /\ forall j, (requests_made w <= j < i)%nat -> HttpResponse.status_code (server w j) <> 200
    | Done false self' w' =>
        server w' = server w
        /\ request_ self' = request_ self
        /\ (requests_made w <= requests_made w')%nat
        /\ forall j, (requests_made w <= j < requests_made w')%nat ->
                     HttpResponse.status_code (server w j) <> 200
    | OutOfFuel => True
    end.
Proof.
  induction fuel as [|fuel IH]; intros self w; simpl; [exact I|].
  destruct (RetryPolicy_.IsExhausted (retry_policy_ self) (clock w)).
  { repeat split; auto. intros j Hj. lia. }
  destruct (HttpResponse.status_code (server w (requests_made w)) =? 200) eqn:H200.
  - apply Z.eqb_eq in H200.
    destruct (ParseAccessToken _ _) as [[header new_expiration]|e]; simpl;
      (split; [reflexivity|]; split; [reflexivity|]);
      exists (requests_made w); repeat split; auto; intros j Hj; lia.
  - apply Z.eqb_neq in H200.
    destruct (RetryPolicy_.OnFailure _ _ _) as [retry policy].
    destruct retry; simpl.
    2:{ repeat split; auto. intros j Hj. assert (j = requests_made w) by lia.
        subst j. exact H200. }
    specialize (IH
      (set_backoff_policy (set_retry_policy self policy)
         (snd (BackoffPolicy_.OnCompletion (backoff_policy_ self))))
      (sleep_for (current_delay (backoff_policy_ self))
         {| clock := clock w; requests_made := S (requests_made w);
            server := server w |})).
    simpl in IH.
    assert (Hearlier : forall i j,
               (forall j, (S (requests_made w) <= j < i)%nat -> HttpResponse.status_code (server w j) <> 200) ->
               (requests_made w <= j < i)%nat -> HttpResponse.status_code (server w j) <> 200).
    { intros i j Hlater Hj.
      destruct (Nat.eq_dec j (requests_made w)) as [-> | Hne];
        [exact H200 | apply Hlater; lia]. }
    destruct (RefreshLoop fuel _ _) as [[|] self' w'|e self' w'|]; auto.
    + destruct IH as (Hs & Hr & i & Hreq & Hi & H200i & Hbefore).
      repeat split; auto. exists i. repeat split; auto; [lia|].
      intros j Hj. exact (Hearlier i j Hbefore Hj).
    + destruct IH as (Hs & Hr & Hle & Hbefore).
      repeat split; auto; [lia|]. intros j Hj. exact (Hearlier _ j Hbefore Hj).
    + destruct IH as (Hs & Hr & i & Hreq & Hi & H200i & Hbefore).
      repeat split; auto. exists i. repeat split; auto; [lia|].
      intros j Hj. exact (Hearlier i j Hbefore Hj).
Qed.

(** X10.  [Refresh] stops at the first 200 answer: when it succeeds after
    asking the endpoint, or leaves with a parsing exception, the last request
    it made was answered 200 and every earlier request of the call was not;
    when it reports failure, none of its requests was answered 200.  The
    stored request is never changed. *)
Theorem Refresh_stops_at_first_200 :
  forall (fuel : nat) (self : AuthorizedUserCredentials) (w : World),
    match Refresh fuel self w with
    | Done true self' w' =>
        request_ self' = request_ self
        /\ (requests_made w' = requests_made w
            \/ exists i,
                 requests_made w' = S i
                 /\ (requests_made w <= i)%nat
                 /\ HttpResponse.status_code (server w i) = 200
                 /\ forall j, (requests_made w <= j < i)%nat -> HttpResponse.status_code (server w j) <> 200)
    | Raised _ self' w' =>
        request_ self' = request_ self
        /\ exists i,
             requests_made w' = S i
             /\ (requests_made w <= i)%nat
             /\ HttpResponse.status_code (server w i) = 200
             /\ forall j, (requests_made w <= j < i)%nat -> HttpResponse.status_code (server w j) <> 200
    | Done false self' w' =>
        request_ self' = request_ self
        /\ (requests_made w <= requests_made w')%nat
        /\ forall j, (requests_made w <= j < requests_made w')%nat ->
                     HttpResponse.status_code (server w j) <> 200
    | OutOfFuel => True
    end.
Proof.
  intros fuel self w. unfold Refresh.
  destruct (clock w <? expiration_time_ self); [auto|].
  pose proof (RefreshLoop_requests fuel self w) as Hloop.
  destruct (RefreshLoop fuel self w) as [[|] self' w'|e self' w'|]; [| | |exact I].
  - destruct Hloop as (_ & Hr & Hi). auto.
  - destruct Hloop as (_ & Hr & Hle & Hbefore). auto.
  - destruct Hloop as (_ & Hr & Hi). auto.
Qed.

Lemma Refresh_fresh (fuel : nat) (self : AuthorizedUserCredentials) (w : World) :
  clock w < expiration_time_ self -> Refresh fuel self w = Done true self w.
Proof. intros Hfresh. unfold Refresh. apply Z.ltb_lt in Hfresh. rewrite Hfresh. reflexivity. Qed.

Lemma Refresh_failed_requests (fuel : nat)
    (self : AuthorizedUserCredentials) (w : World)
    (self' : AuthorizedUserCredentials) (w' : World) :
  Refresh fuel self w = Done false self' w' ->
  (requests_made w <= requests_made w')%nat.
Proof.
  unfold Refresh. destruct (clock w <? expiration_time_ self); [discriminate|].
  intros Hloop. pose proof (RefreshLoop_requests fuel self w) as Hreq.
  rewrite Hloop in Hreq. destruct Hreq as (_ & _ & Hle & _). exact Hle.
Qed.

(** What a returned header is. *)
Lemma AuthorizationHeader_returned (fuel : nat) (wakeups : list nat) :
  forall (self : AuthorizedUserCredentials) (w : World)
         (header : string) (self' : AuthorizedUserCredentials) (w' : World),
    AuthorizationHeader fuel wakeups self w = Returned header self' w' ->
    header = authorization_header_ self'
    /\ (clock w' < expiration_time_ self'
        \/ exists i,
             (requests_made w <= i < requests_made w')%nat
             /\ HttpResponse.status_code (server w' i) = 200
             /\ ParseAccessToken (HttpResponse.payload (server w' i)) (clock w')
                = Returns (header, expiration_time_ self')).
Proof.
  induction wakeups as [|waited wakeups IH]; intros self w header self' w';
    simpl; destruct (Refresh fuel self w) as [[|] s1 w1|e s1 w1|] eqn:Hrefresh;
    try discriminate.
  1,2: intros [= <- <- <-]; split; [reflexivity|];
       unfold Refresh in Hrefresh;
       destruct (clock w <? expiration_time_ self) eqn:Hfresh;
       [ injection Hrefresh as <- <-; left; apply Z.ltb_lt; exact Hfresh
       | right;
         pose proof (RefreshLoop_token fuel self w) as Htoken;
         pose proof (RefreshLoop_requests fuel self w) as Hreq;
         rewrite Hrefresh in Htoken, Hreq;
         destruct Htoken as (i & Hi & H200 & Hparse);
         destruct Hreq as (Hserver & _);
         exists i; rewrite Hserver; repeat split; auto; lia ].
  intros Hrun. apply Refresh_failed_requests in Hrefresh.
  destruct (IH _ _ _ _ _ Hrun) as [Hheader [Hfresh | (i & Hi & Hrest)]].
  - auto.
  - split; [exact Hheader|]. right. exists i. simpl in Hi.
    split; [lia | exact Hrest].
Qed.

(** X11.  A header that [AuthorizationHeader] returns is never a cached one
    whose expiration has passed: it is the stored header, and either its
    expiration is still in the future or header and expiration were built
    from a 200 answer to one of the requests made during this very call. *)
Theorem AuthorizationHeader_never_returns_expired_cache :
  forall (fuel : nat) (wakeups : list nat)
         (self : AuthorizedUserCredentials) (w : World)
         (header : string) (self' : AuthorizedUserCredentials) (w' : World),
    AuthorizationHeader fuel wakeups self w = Returned header self' w' ->
    header = authorization_header_ self'
    /\ (clock w' < expiration_time_ self'
        \/ exists i,
             (requests_made w <= i < requests_made w')%nat
             /\ HttpResponse.status_code (server w' i) = 200
             /\ ParseAccessToken (HttpResponse.payload (server w' i)) (clock w')
                = Returns (header, expiration_time_ self')).
Proof.
  intros fuel wakeups self w header self' w' Hrun.
  destruct (AuthorizationHeader_returned fuel wakeups self w header self' w' Hrun)
    as [Hheader Hsource].
  split; [exact Hheader | exact Hsource].
Qed.

(** X12.  A returned header is cached: while the clock stays before the new
    expiration, every later call on the resulting object returns the same
    header at once, without a request and without touching the object. *)
Theorem AuthorizationHeader_result_is_cached :
  forall (fuel : nat) (wakeups : list nat)
         (self : AuthorizedUserCredentials) (w : World)
         (header : string) (self' : AuthorizedUserCredentials) (w' : World),
    AuthorizationHeader fuel wakeups self w = Returned header self' w' ->
    forall (fuel2 : nat) (wakeups2 : list nat) (later : World),
      clock later < expiration_time_ self' ->
      AuthorizationHeader fuel2 wakeups2 self' later = Returned header self' later.
Proof.
  intros fuel wakeups self w header self' w' Hrun fuel2 wakeups2 later Hfresh.
  destruct (AuthorizationHeader_returned fuel wakeups self w header self' w' Hrun)
    as [-> _].
  destruct wakeups2; simpl; rewrite (Refresh_fresh fuel2 self' later Hfresh);
    reflexivity.
Qed.


End RefreshDiscipline.

Section RefreshDisciplineExamples.
Import AuthorizedUserCredentials_.
Existing Instance Sample.parser.
Existing Instance Sample.constants.


Lemma AuthorizationHeader_result_is_cached_witness :
  AuthorizationHeader 0 [7%nat]
    (Sample.with_token (Sample.stale_credentials 2)
       "Authorization: Bearer abc" (1000 + chrono.seconds 3600 - chrono.seconds 500))
    (sleep_for (chrono.seconds 3000)
       {| clock := 1000; requests_made := 1; server := server Sample.token_world |})
  = Returned "Authorization: Bearer abc"
      (Sample.with_token (Sample.stale_credentials 2)
         "Authorization: Bearer abc" (1000 + chrono.seconds 3600 - chrono.seconds 500))
      (sleep_for (chrono.seconds 3000)
         {| clock := 1000; requests_made := 1; server := server Sample.token_world |}).
Proof.
  apply (@AuthorizationHeader_result_is_cached Sample.parser Sample.constants
           1%nat [] (Sample.stale_credentials 2)
           Sample.token_world "Authorization: Bearer abc"
           (Sample.with_token (Sample.stale_credentials 2)
              "Authorization: Bearer abc" (1000 + chrono.seconds 3600 - chrono.seconds 500))
           {| clock := 1000; requests_made := 1; server := server Sample.token_world |}
           eq_refl 0%nat [7%nat]).
  reflexivity.
Defined.

Lemma AuthorizationHeader_never_returns_expired_cache_witness :
  "Authorization: Bearer abc"
  = authorization_header_
      (Sample.with_token (Sample.stale_credentials 2)
         "Authorization: Bearer abc" (1000 + chrono.seconds 3600 - chrono.seconds 500))
  /\ (1000 < 1000 + chrono.seconds 3600 - chrono.seconds 500
      \/ exists i,
           (0 <= i < 1)%nat
           /\ HttpResponse.status_code (server Sample.token_world i) = 200
           /\ ParseAccessToken (HttpResponse.payload (server Sample.token_world i)) 1000
              = Returns ("Authorization: Bearer abc",
                         1000 + chrono.seconds 3600 - chrono.seconds 500)).
Proof.
  exact (@AuthorizationHeader_never_returns_expired_cache
           Sample.parser Sample.constants 1%nat []
           (Sample.stale_credentials 2) Sample.token_world "Authorization: Bearer abc"
           (Sample.with_token (Sample.stale_credentials 2)
              "Authorization: Bearer abc" (1000 + chrono.seconds 3600 - chrono.seconds 500))
           {| clock := 1000; requests_made := 1; server := server Sample.token_world |}
           eq_refl).
Defined.

End RefreshDisciplineExamples.

(** ** More on policy overrides and resource names *)

Section StorageOverrides.
Import AuthorizedUserCredentials_.

Lemma Apply_frame (self : AuthorizedUserCredentials) (policy : Policy) :
  request_ (Apply self policy) = request_ self
  /\ authorization_header_ (Apply self policy) = authorization_header_ self
  /\ expiration_time_ (Apply self policy) = expiration_time_ self.
Proof. destruct policy; repeat split. Qed.

(** X14.  Policy overrides only ever replace policies: [ApplyPolicies] leaves
    the request, the cached header and its expiration alone, and applying two
    batches of overrides one after the other is the same as applying their
    concatenation. *)
Theorem ApplyPolicies_touches_only_policies :
  forall (self : AuthorizedUserCredentials) (first second : list Policy),
    ApplyPolicies self (first ++ second)%list
      = ApplyPolicies (ApplyPolicies self first) second
    /\ request_ (ApplyPolicies self first) = request_ self
    /\ authorization_header_ (ApplyPolicies self first) = authorization_header_ self
    /\ expiration_time_ (ApplyPolicies self first) = expiration_time_ self.
Proof.
  intros self first second. split.
  - rewrite !ApplyPolicies_fold. apply fold_left_app.
  - revert self. induction first as [|policy first IH]; intros self; simpl.
    + repeat split.
    + destruct (IH (Apply self policy)) as (Hr & Hh & He).
      destruct (Apply_frame self policy) as (Hr' & Hh' & He').
      repeat split; congruence.
Qed.

End StorageOverrides.

Section BigtableNames.
Context {R B P : Type} `{Cloneable R} `{Cloneable B} `{Cloneable P}.
Context `{@bigtable.Defaults R B P}.

Lemma ChangePolicies_frame (policies : list (@bigtable.Policy R B P)) :
  forall self : @bigtable.TableAdmin R B P,
    bigtable.client_ (bigtable.ChangePolicies self policies) = bigtable.client_ self
    /\ bigtable.instance_id_ (bigtable.ChangePolicies self policies)
       = bigtable.instance_id_ self
    /\ bigtable.instance_name_ (bigtable.ChangePolicies self policies)
       = bigtable.instance_name_ self
    /\ bigtable.metadata_update_policy_ (bigtable.ChangePolicies self policies)
       = bigtable.metadata_update_policy_ self.
Proof.
  induction policies as [|policy policies IH]; intros self; simpl.
  - repeat split.
  - destruct (IH (bigtable.ChangePolicy self policy)) as (Hc & Hi & Hn & Hm).
    rewrite Hc, Hi, Hn, Hm. destruct policy; repeat split.
Qed.

(** X15.  Whatever policy overrides a [TableAdmin] was built with, the
    operation that [AsyncGetTable] starts asks for
    [<instance name>/tables/<table id>] with the requested view, is marked
    idempotent, carries the client and the metadata policy of the instance,
    and runs on clones of the retry and backoff policy that the overrides
    left in place. *)
Theorem AsyncGetTable_of_configured_admin :
  forall (client : bigtable.AdminClient) (instance_id table_id : string)
         (policies : list (@bigtable.Policy R B P)) (v : bigtable.View),
    let admin := bigtable.new_with_policies client instance_id policies in
    let op := bigtable.AsyncGetTable admin table_id v in
    bigtable.op_request op
      = {| bigtable.name :=
             bigtable.InstanceName client instance_id ++ "/tables/" ++ table_id;
           bigtable.view := v |}
    /\ bigtable.op_metadata_update_policy op
       = {| bigtable.resource_name := bigtable.InstanceName client instance_id;
            bigtable.param_type := bigtable.PARENT |}
    /\ bigtable.op_client op = client
    /\ bigtable.idempotent_policy op = true
    /\ bigtable.op_rpc_retry_policy op
       = clone (honored (last_of bigtable_retry policies)
                        bigtable.DefaultRPCRetryPolicy)
    /\ bigtable.op_rpc_backoff_policy op
       = clone (honored (last_of bigtable_backoff policies)
                        bigtable.DefaultRPCBackoffPolicy).
Proof.
  intros client instance_id table_id policies v admin op. subst op admin.
  unfold bigtable.AsyncGetTable, bigtable.TableName, bigtable.new_with_policies.
  destruct (ChangePolicies_frame policies (bigtable.new client instance_id))
    as (Hc & _ & Hn & Hm).
  cbn [bigtable.op_request bigtable.op_metadata_update_policy bigtable.op_client
       bigtable.idempotent_policy bigtable.op_rpc_retry_policy
       bigtable.op_rpc_backoff_policy].
  rewrite Hc, Hn, Hm, ChangePolicies_fold.
  rewrite (fold_left_honored bigtable.ChangePolicy bigtable.rpc_retry_policy_
             bigtable_retry) by (intros s [p|p|p]; reflexivity).
  rewrite (fold_left_honored bigtable.ChangePolicy bigtable.rpc_backoff_policy_
             bigtable_backoff) by (intros s [p|p|p]; reflexivity).
  repeat split.
Qed.

(** A text without ["/"] in front of a ["/"] determines where to cut. *)
Lemma cut_at_first_slash (a b x y : string) :
  ~ contains "/" a -> ~ contains "/" b ->
  a ++ "/" ++ x = b ++ "/" ++ y -> a = b /\ x = y.
Proof.
  revert b; induction a as [|c a IH]; intros [|d b] Ha Hb; simpl; intros Heq.
  - injection Heq as ->. auto.
  - injection Heq as <- _. exfalso. apply Hb. exists "", b. reflexivity.
  - injection Heq as -> _. exfalso. apply Ha. exists "", a. reflexivity.
  - injection Heq as -> Heq. destruct (IH b) as [-> ->]; auto.
    + intros (before & after & ->). apply Ha. exists (String d before), after.
      reflexivity.
    + intros (before & after & ->). apply Hb. exists (String d before), after.
      reflexivity.
Qed.

(** X16.  Resource names do not collide: different table ids give
    different table names and different cluster ids different cluster names;
    a snapshot name is the cluster name followed by ["/snapshots/"] and the
    snapshot id, and two snapshot names differ as soon as the cluster ids or
    the snapshot ids differ, provided the cluster ids contain no ["/"]. *)
Theorem resource_names_do_not_collide :
  forall (self : @bigtable.TableAdmin R B P),
    (forall a b, a <> b -> bigtable.TableName self a <> bigtable.TableName self b)
    /\ (forall c1 c2,
          c1 <> c2 -> bigtable.ClusterName self c1 <> bigtable.ClusterName self c2)
    /\ (forall c s,
          bigtable.SnapshotName self c s
          = bigtable.ClusterName self c ++ "/snapshots/" ++ bigtable.snapshot_id_get s)
    /\ (forall c1 c2 s1 s2,
          ~ contains "/" (bigtable.cluster_id_get c1) ->
          ~ contains "/" (bigtable.cluster_id_get c2) ->
          c1 <> c2 \/ s1 <> s2 ->
          bigtable.SnapshotName self c1 s1 <> bigtable.SnapshotName self c2 s2).
Proof.
  intros self. unfold bigtable.TableName, bigtable.ClusterName, bigtable.SnapshotName.
  split; [|split; [|split]].
  - intros a b Hne Heq. apply Hne. apply append_cancel_l in Heq.
    exact (append_cancel_l "/tables/" a b Heq).
  - intros [c1] [c2] Hne Heq. apply Hne. simpl in Heq. rewrite !append_assoc in Heq.
    do 2 apply append_cancel_l in Heq. congruence.
  - intros c s. rewrite !append_assoc. reflexivity.
  - intros [c1] [c2] [s1] [s2] Hc1 Hc2 Hne Heq. simpl in *.
    rewrite !append_assoc in Heq. do 2 apply append_cancel_l in Heq.
    change ("/snapshots/" ++ s1) with ("/" ++ "snapshots/" ++ s1) in Heq.
    change ("/snapshots/" ++ s2) with ("/" ++ "snapshots/" ++ s2) in Heq.
    destruct (cut_at_first_slash _ _ _ _ Hc1 Hc2 Heq) as [-> Hs].
    apply append_cancel_l in Hs. subst s2. destruct Hne as [Hne | Hne]; auto.
Qed.

End BigtableNames.

Lemma resource_names_do_not_collide_witness :
  bigtable.TableName Sample.table_admin "t1" <> bigtable.TableName Sample.table_admin "t2"
  /\ bigtable.SnapshotName Sample.table_admin
       {| bigtable.cluster_id_get := "c1" |} {| bigtable.snapshot_id_get := "s1" |}
     <> bigtable.SnapshotName Sample.table_admin
          {| bigtable.cluster_id_get := "c2" |} {| bigtable.snapshot_id_get := "s1" |}.
Proof.
  split.
  - apply (proj1 (resource_names_do_not_collide Sample.table_admin)). discriminate.
  - apply (proj2 (proj2 (proj2 (resource_names_do_not_collide Sample.table_admin)))).
    + apply find_None. reflexivity.
    + apply find_None. reflexivity.
    + left. discriminate.
Defined.

(** Without the proviso two different pairs of ids give one name. *)
Example SnapshotName_collision :
  bigtable.SnapshotName Sample.table_admin
    {| bigtable.cluster_id_get := "a/snapshots/b" |} {| bigtable.snapshot_id_get := "c" |}
  = bigtable.SnapshotName Sample.table_admin
      {| bigtable.cluster_id_get := "a" |} {| bigtable.snapshot_id_get := "b/snapshots/c" |}.
Proof. reflexivity. Qed.

(** ** The test program *)

Section TestProgram.
Import object_integration_test.

Lemma last_index_of_None (c : ascii) (s : string) :
  last_index_of c s = None -> ~ contains (String c "") s.
Proof.
  induction s as [|d s IH]; simpl.
  - intros _ (before & after & Heq). destruct before; discriminate.
  - destruct (last_index_of c s) as [p|]; [discriminate|].
    destruct (Ascii.eqb_spec d c) as [->|Hdc]; [discriminate|].
    intros _ (before & after & Heq). destruct before as [|x before]; simpl in Heq.
    + injection Heq as Hd _. congruence.
    + injection Heq as _ Heq. apply (IH eq_refl). exists before, after. exact Heq.
Qed.

Lemma last_index_of_Some (c : ascii) (s : string) (p : nat) :
  last_index_of c s = Some p ->
  exists dir base,
    s = dir ++ String c base /\ String.length dir = p /\ ~ contains (String c "") base.
Proof.
  revert p; induction s as [|d s IH]; intros p; simpl; [discriminate|].
  destruct (last_index_of c s) as [q|] eqn:Hlast.
  - intros [= <-]. destruct (IH q eq_refl) as (dir & base & -> & Hlen & Hbase).
    exists (String d dir), base. simpl. auto.
  - destruct (Ascii.eqb_spec d c) as [->|Hdc]; [|discriminate].
    intros [= <-]. exists "", s. repeat split.
    exact (last_index_of_None c s Hlast).
Qed.

(** X17.  When the arguments that [InitGoogleMock] leaves are not exactly
    two, the test program exits with code 1 after printing a usage line that
    names the program by the part of [argv[0]] after its last ["/"], or by all
    of [argv[0]] when it contains none (where [npos + 1] wraps around to 0). *)
Theorem main_usage_names_the_program :
  forall (mock : GoogleMock) (argv0 : string) (args : list string),
    Z.of_nat (String.length argv0) < size_t_modulus ->
    List.length (InitGoogleMock args) <> 2%nat ->
    exists dir base,
      argv0 = dir ++ base
      /\ (dir = "" \/ exists parent, dir = parent ++ "/")
      /\ ~ contains "/" base
      /\ main argv0 args
         = Exit 1 ("Usage: " ++ base ++ " <project-id> <bucket-name>" ++ endl).
Proof.
  intros mock argv0 args Hsize Hargs. unfold main.
  assert (Hargc : (1 + Z.of_nat (List.length (InitGoogleMock args)) =? 3) = false)
    by (apply Z.eqb_neq; lia).
  rewrite Hargc. simpl negb. cbv iota. unfold find_last_of.
  destruct (last_index_of "/" argv0) as [p|] eqn:Hlast.
  - destruct (last_index_of_Some _ _ _ Hlast) as (dir & base & Hcmd & Hlen & Hbase).
    exists (dir ++ "/"), base.
    assert (Hcmd' : argv0 = (dir ++ "/") ++ base)
      by (rewrite append_assoc; exact Hcmd).
    split; [exact Hcmd'|]. split; [right; exists dir; reflexivity|].
    split; [exact Hbase|].
    assert (Hp : (p < String.length argv0)%nat).
    { rewrite Hcmd, length_app, Hlen. simpl. lia. }
    assert (Hpos : Z.to_nat (size_t_add (Z.of_nat p) 1) = String.length (dir ++ "/")).
    { unfold size_t_add. rewrite Z.mod_small by lia.
      rewrite length_app, Hlen. simpl. lia. }
    rewrite Hpos. rewrite Hcmd' at 1. rewrite substr_app.
    rewrite !append_assoc. reflexivity.
  - exists "", argv0. split; [reflexivity|]. split; [left; reflexivity|].
    split; [exact (last_index_of_None _ _ Hlast)|].
    change (Z.to_nat (size_t_add npos 1)) with 0%nat. simpl std.substr.
    rewrite !append_assoc. reflexivity.
Qed.

Lemma main_usage_names_the_program_witness :
  exists dir base,
    "/usr/bin/object_integration_test" = dir ++ base
    /\ (dir = "" \/ exists parent, dir = parent ++ "/")
    /\ ~ contains "/" base
    /\ @main Sample.google_mock "/usr/bin/object_integration_test"
         ["my-project"; "--gtest_filter=*"]
       = Exit 1 ("Usage: " ++ base ++ " <project-id> <bucket-name>" ++ endl).
Proof.
  apply (main_usage_names_the_program Sample.google_mock
           "/usr/bin/object_integration_test" ["my-project"; "--gtest_filter=*"]).
  - reflexivity.
  - discriminate.
Defined.

Example main_usage_lines :
  @main Sample.google_mock "/usr/bin/object_integration_test" []
  = Exit 1 ("Usage: object_integration_test <project-id> <bucket-name>" ++ endl)
  /\ @main Sample.google_mock "object_integration_test" ["a"; "b"; "c"]
     = Exit 1 ("Usage: object_integration_test <project-id> <bucket-name>" ++ endl)
  /\ @main Sample.google_mock "./object_integration_test" ["my-project"; "my-bucket"]
     = RunAllTests "my-project" "my-bucket"
  /\ @main Sample.google_mock "./object_integration_test"
       ["--gtest_filter=*"; "my-project"; "my-bucket"]
     = RunAllTests "my-project" "my-bucket".
Proof. repeat split. Qed.

(** X18.  Provided [Sample] returns as many characters as it is asked for,
    a random bucket name is the fixed prefix followed by random characters
    and is exactly 63 characters long, the longest a bucket name may be, and
    a random object name is 23 characters long. *)
Theorem random_names_have_fixed_length :
  forall (PRNG : Type) (random : Random PRNG) (generator_ : PRNG),
    (forall g n population,
        0 <= n -> population <> "" ->
        String.length (fst (Sample g n population)) = Z.to_nat n) ->
    String.length (fst (MakeRandomBucketName generator_)) = 63%nat
    /\ prefix "gcs-cpp-test-bucket-" (fst (MakeRandomBucketName generator_)) = true
    /\ String.length (fst (MakeRandomObjectName generator_)) = 23%nat.
Proof.
  intros PRNG random generator_ Hsample.
  unfold MakeRandomBucketName, MakeRandomObjectName.
  change (static_cast_int (size_t_sub 63 (Z.of_nat (String.length "gcs-cpp-test-bucket-"))))
    with 43.
  pose proof (Hsample generator_ 43 "abcdefghijklmnopqrstuvwxyz012456789"
                ltac:(discriminate) ltac:(discriminate)) as Hbucket.
  pose proof (Hsample generator_ 16
                ("abcdefghijklmnopqrstuvwxyz" ++ "ABCDEFGHIJKLMNOPQRSTUVWXYZ" ++ "012456789")
                ltac:(discriminate) ltac:(discriminate)) as Hobject.
  destruct (Sample generator_ 43 _) as [bucket g1].
  destruct (Sample generator_ 16 _) as [object g2].
  cbn [fst] in *. cbv beta iota. cbn [fst]. repeat split.
  - rewrite length_app, Hbucket. reflexivity.
  - apply prefix_app. eauto.
  - rewrite !length_app, Hobject. reflexivity.
Qed.

Lemma get_in_range (s : string) :
  forall n, (n < String.length s)%nat -> exists c, String.get n s = Some c.
Proof.
  induction s as [|d s IH]; intros n Hn; simpl in Hn; [lia|].
  destruct n as [|n]; simpl; [eauto | apply IH; lia].
Qed.

Lemma length_repeat (c : ascii) (n : nat) :
  String.length (string_of_list_ascii (repeat c n)) = n.
Proof. induction n; simpl; congruence. Qed.

Lemma counting_sample_length (g : nat) (n : Z) (population : string) :
  0 <= n -> population <> "" ->
  String.length (fst (@Sample nat Sample.counting_sample g n population)) = Z.to_nat n.
Proof.
  intros _ Hpopulation. unfold Sample, Sample.counting_sample. simpl fst.
  destruct (get_in_range population (Nat.modulo g (String.length population)))
    as [c Hc].
  - apply Nat.mod_upper_bound. destruct population; [congruence | discriminate].
  - rewrite Hc. apply length_repeat.
Qed.

Lemma random_names_have_fixed_length_witness :
  String.length (fst (@MakeRandomBucketName nat Sample.counting_sample 5%nat)) = 63%nat
  /\ prefix "gcs-cpp-test-bucket-"
       (fst (@MakeRandomBucketName nat Sample.counting_sample 5%nat)) = true
  /\ String.length (fst (@MakeRandomObjectName nat Sample.counting_sample 5%nat)) = 23%nat.
Proof.
  apply (random_names_have_fixed_length nat Sample.counting_sample 5%nat).
  exact counting_sample_length.
Defined.

Example MakeRandomBucketName_sample :
  fst (@MakeRandomBucketName nat Sample.counting_sample 5%nat)
  = "gcs-cpp-test-bucket-fffffffffffffffffffffffffffffffffffffffffff".
Proof. reflexivity. Qed.

End TestProgram.
